(** * Document analysis pipeline of dociq-backend

    A shallow embedding of [risk_analyzer.py], [rewrite_engine.py],
    [summary_engine.py] and the orchestration in [main.py]
    ([analyze_text]), followed by the properties of the pipeline.

    Python values are modelled as follows.
    - [str] is a sequence of Unicode code points ([list N]); texts are
      assumed to hold scalar values only, as UTF-8 decoded input does, so
      that [str.encode()] is total. The character tables ([isspace],
      [isdecimal], the lowercase mappings and the properties read by
      [lower]) are those of Unicode 14.0, the version of CPython 3.11.
    - [int] is [Z]; list indices and lengths are [nat] where the code can
      only produce non-negative values.
    - A [dict] with a fixed set of keys is a [Record]; a key that may be
      absent is an [option] field.
    - The generation service is a function from the prompt to its
      outcome; calls to it are recorded in a log threaded through the
      code ([io]). *)

From Stdlib Require Import String Ascii List ZArith NArith Lia Bool.
From Stdlib Require Import Sorted Permutation DecimalString.
Import ListNotations.

Set Implicit Arguments.

(* ================================================================== *)
(** * Python strings *)
(* ================================================================== *)

Module PyStr.

Definition char := N.
Definition str := list char.

(** A source literal (ASCII only) as a [str]. *)
Definition lit (s : string) : str :=
  map N_of_ascii (list_ascii_of_string s).
Arguments lit s%_string.

Definition char_eqb (a b : char) : bool := N.eqb a b.

Fixpoint str_eqb (a b : str) : bool :=
  match a, b with
  | [], [] => true
  | x :: a', y :: b' => char_eqb x y && str_eqb a' b'
  | _, _ => false
  end.

Definition between (lo hi c : N) : bool := (N.leb lo c && N.leb c hi)%bool.

(** [str.isspace] on one code point, which is also the class [\s] of
    [re] on [str] patterns. *)
Definition isspace (c : char) : bool :=
  between 9 13 c || between 28 32 c || N.eqb c 133 || N.eqb c 160
  || N.eqb c 5760 || between 8192 8202 c || N.eqb c 8232
  || N.eqb c 8233 || N.eqb c 8239 || N.eqb c 8287 || N.eqb c 12288.

(** [str.isdecimal] on one code point, which is also the class [\d]
    of [re] on [str] patterns: the decimal digits (category Nd) of
    Unicode 14.0, the version of CPython 3.11. They come in runs of
    ten, listed here by their digit zero. *)
Definition decimal_zeros : list N :=
  [48; 1632; 1776; 1984; 2406; 2534; 2662; 2790; 2918; 3046; 3174; 3302;
   3430; 3558; 3664; 3792; 3872; 4160; 4240; 6112; 6160; 6470; 6608; 6784;
   6800; 6992; 7088; 7232; 7248; 42528; 43216; 43264; 43472; 43504; 43600;
   44016; 65296; 66720; 68912; 69734; 69872; 69942; 70096; 70384; 70736;
   70864; 71248; 71360; 71472; 71904; 72016; 72784; 73040; 73120; 92768;
   92864; 93008; 120782; 120792; 120802; 120812; 120822; 123200; 123632;
   125264; 130032]%N.

Definition isdecimal (c : char) : bool :=
  existsb (fun zero => between zero (zero + 9) c) decimal_zeros.

Fixpoint lstrip (s : str) : str :=
  match s with
  | c :: s' => if isspace c then lstrip s' else s
  | [] => []
  end.

Definition rstrip (s : str) : str := rev (lstrip (rev s)).

(** [s.strip()] *)
Definition strip (s : str) : str := rstrip (lstrip s).

(** A run of code points that have a lowercase mapping: every
    [run_stride]-th code point from [run_first] to [run_last];
    [run_first] is mapped to [run_image], and the others of the run at
    the same distance. *)
Record case_run :=
  run { run_first : N; run_last : N; run_stride : N; run_image : N }.

(** The simple lowercase mappings of Unicode 14.0 (1433 code points),
    the version of CPython 3.11; the runs are disjoint and listed in
    increasing order. *)
Definition lowercase_runs : list case_run :=
  [run 65 90 1 97; run 192 214 1 224; run 216 222 1 248; run 256 302 2 257;
   run 304 304 1 105; run 306 310 2 307; run 313 327 2 314;
   run 330 374 2 331; run 376 376 1 255; run 377 381 2 378;
   run 385 385 1 595; run 386 388 2 387; run 390 390 1 596;
   run 391 391 1 392; run 393 394 1 598; run 395 395 1 396;
   run 398 398 1 477; run 399 399 1 601; run 400 400 1 603;
   run 401 401 1 402; run 403 403 1 608; run 404 404 1 611;
   run 406 406 1 617; run 407 407 1 616; run 408 408 1 409;
   run 412 412 1 623; run 413 413 1 626; run 415 415 1 629;
   run 416 420 2 417; run 422 422 1 640; run 423 423 1 424;
   run 425 425 1 643; run 428 428 1 429; run 430 430 1 648;
   run 431 431 1 432; run 433 434 1 650; run 435 437 2 436;
   run 439 439 1 658; run 440 440 1 441; run 444 444 1 445;
   run 452 452 1 454; run 453 453 1 454; run 455 455 1 457;
   run 456 456 1 457; run 458 458 1 460; run 459 475 2 460;
   run 478 494 2 479; run 497 497 1 499; run 498 500 2 499;
   run 502 502 1 405; run 503 503 1 447; run 504 542 2 505;
   run 544 544 1 414; run 546 562 2 547; run 570 570 1 11365;
   run 571 571 1 572; run 573 573 1 410; run 574 574 1 11366;
   run 577 577 1 578; run 579 579 1 384; run 580 580 1 649;
   run 581 581 1 652; run 582 590 2 583; run 880 882 2 881;
   run 886 886 1 887; run 895 895 1 1011; run 902 902 1 940;
   run 904 906 1 941; run 908 908 1 972; run 910 911 1 973;
   run 913 929 1 945; run 931 939 1 963; run 975 975 1 983;
   run 984 1006 2 985; run 1012 1012 1 952; run 1015 1015 1 1016;
   run 1017 1017 1 1010; run 1018 1018 1 1019; run 1021 1023 1 891;
   run 1024 1039 1 1104; run 1040 1071 1 1072; run 1120 1152 2 1121;
   run 1162 1214 2 1163; run 1216 1216 1 1231; run 1217 1229 2 1218;
   run 1232 1326 2 1233; run 1329 1366 1 1377; run 4256 4293 1 11520;
   run 4295 4295 1 11559; run 4301 4301 1 11565; run 5024 5103 1 43888;
   run 5104 5109 1 5112; run 7312 7354 1 4304; run 7357 7359 1 4349;
   run 7680 7828 2 7681; run 7838 7838 1 223; run 7840 7934 2 7841;
   run 7944 7951 1 7936; run 7960 7965 1 7952; run 7976 7983 1 7968;
   run 7992 7999 1 7984; run 8008 8013 1 8000; run 8025 8031 2 8017;
   run 8040 8047 1 8032; run 8072 8079 1 8064; run 8088 8095 1 8080;
   run 8104 8111 1 8096; run 8120 8121 1 8112; run 8122 8123 1 8048;
   run 8124 8124 1 8115; run 8136 8139 1 8050; run 8140 8140 1 8131;
   run 8152 8153 1 8144; run 8154 8155 1 8054; run 8168 8169 1 8160;
   run 8170 8171 1 8058; run 8172 8172 1 8165; run 8184 8185 1 8056;
   run 8186 8187 1 8060; run 8188 8188 1 8179; run 8486 8486 1 969;
   run 8490 8490 1 107; run 8491 8491 1 229; run 8498 8498 1 8526;
   run 8544 8559 1 8560; run 8579 8579 1 8580; run 9398 9423 1 9424;
   run 11264 11311 1 11312; run 11360 11360 1 11361; run 11362 11362 1 619;
   run 11363 11363 1 7549; run 11364 11364 1 637; run 11367 11371 2 11368;
   run 11373 11373 1 593; run 11374 11374 1 625; run 11375 11375 1 592;
   run 11376 11376 1 594; run 11378 11378 1 11379; run 11381 11381 1 11382;
   run 11390 11391 1 575; run 11392 11490 2 11393; run 11499 11501 2 11500;
   run 11506 11506 1 11507; run 42560 42604 2 42561;
   run 42624 42650 2 42625; run 42786 42798 2 42787;
   run 42802 42862 2 42803; run 42873 42875 2 42874;
   run 42877 42877 1 7545; run 42878 42886 2 42879;
   run 42891 42891 1 42892; run 42893 42893 1 613; run 42896 42898 2 42897;
   run 42902 42920 2 42903; run 42922 42922 1 614; run 42923 42923 1 604;
   run 42924 42924 1 609; run 42925 42925 1 620; run 42926 42926 1 618;
   run 42928 42928 1 670; run 42929 42929 1 647; run 42930 42930 1 669;
   run 42931 42931 1 43859; run 42932 42946 2 42933;
   run 42948 42948 1 42900; run 42949 42949 1 642; run 42950 42950 1 7566;
   run 42951 42953 2 42952; run 42960 42960 1 42961;
   run 42966 42968 2 42967; run 42997 42997 1 42998;
   run 65313 65338 1 65345; run 66560 66599 1 66600;
   run 66736 66771 1 66776; run 66928 66938 1 66967;
   run 66940 66954 1 66979; run 66956 66962 1 66995;
   run 66964 66965 1 67003; run 68736 68786 1 68800;
   run 71840 71871 1 71872; run 93760 93791 1 93792;
   run 125184 125217 1 125218]%N.

(** Simple (one to one) lowercase mapping of a code point
    ([_PyUnicode_ToLowercase]), as used by [re] under [IGNORECASE]. *)
Fixpoint find_run (c : char) (runs : list case_run) : option case_run :=
  match runs with
  | [] => None
  | r :: rest =>
      if N.ltb c (run_first r) then None
      else if N.leb c (run_last r) then
        (if N.eqb ((c - run_first r) mod run_stride r) 0 then Some r
         else None)
      else find_run c rest
  end.

Definition tolower (c : char) : char :=
  match find_run c lowercase_runs with
  | Some r => (run_image r + (c - run_first r))%N
  | None => c
  end.

Definition in_ranges (ranges : list (N * N)) (c : char) : bool :=
  existsb (fun r => between (fst r) (snd r) c) ranges.

(** The code points with the property Cased of Unicode 14.0. *)
Definition cased_ranges : list (N * N) :=
  [(65, 90); (97, 122); (170, 170); (181, 181); (186, 186); (192, 214);
   (216, 246); (248, 442); (444, 447); (452, 659); (661, 696); (704, 705);
   (736, 740); (837, 837); (880, 883); (886, 887); (890, 893); (895, 895);
   (902, 902); (904, 906); (908, 908); (910, 929); (931, 1013);
   (1015, 1153); (1162, 1327); (1329, 1366); (1376, 1416); (4256, 4293);
   (4295, 4295); (4301, 4301); (4304, 4346); (4349, 4351); (5024, 5109);
   (5112, 5117); (7296, 7304); (7312, 7354); (7357, 7359); (7424, 7615);
   (7680, 7957); (7960, 7965); (7968, 8005); (8008, 8013); (8016, 8023);
   (8025, 8025); (8027, 8027); (8029, 8029); (8031, 8061); (8064, 8116);
   (8118, 8124); (8126, 8126); (8130, 8132); (8134, 8140); (8144, 8147);
   (8150, 8155); (8160, 8172); (8178, 8180); (8182, 8188); (8305, 8305);
   (8319, 8319); (8336, 8348); (8450, 8450); (8455, 8455); (8458, 8467);
   (8469, 8469); (8473, 8477); (8484, 8484); (8486, 8486); (8488, 8488);
   (8490, 8493); (8495, 8500); (8505, 8505); (8508, 8511); (8517, 8521);
   (8526, 8526); (8544, 8575); (8579, 8580); (9398, 9449); (11264, 11492);
   (11499, 11502); (11506, 11507); (11520, 11557); (11559, 11559);
   (11565, 11565); (42560, 42605); (42624, 42653); (42786, 42887);
   (42891, 42894); (42896, 42954); (42960, 42961); (42963, 42963);
   (42965, 42969); (42997, 42998); (43000, 43002); (43824, 43866);
   (43868, 43880); (43888, 43967); (64256, 64262); (64275, 64279);
   (65313, 65338); (65345, 65370); (66560, 66639); (66736, 66771);
   (66776, 66811); (66928, 66938); (66940, 66954); (66956, 66962);
   (66964, 66965); (66967, 66977); (66979, 66993); (66995, 67001);
   (67003, 67004); (67456, 67456); (67459, 67461); (67463, 67504);
   (67506, 67514); (68736, 68786); (68800, 68850); (71840, 71903);
   (93760, 93823); (119808, 119892); (119894, 119964); (119966, 119967);
   (119970, 119970); (119973, 119974); (119977, 119980); (119982, 119993);
   (119995, 119995); (119997, 120003); (120005, 120069); (120071, 120074);
   (120077, 120084); (120086, 120092); (120094, 120121); (120123, 120126);
   (120128, 120132); (120134, 120134); (120138, 120144); (120146, 120485);
   (120488, 120512); (120514, 120538); (120540, 120570); (120572, 120596);
   (120598, 120628); (120630, 120654); (120656, 120686); (120688, 120712);
   (120714, 120744); (120746, 120770); (120772, 120779); (122624, 122633);
   (122635, 122654); (125184, 125251); (127280, 127305); (127312, 127337);
   (127344, 127369)]%N.

(** The code points with the property Case_Ignorable of Unicode 14.0. *)
Definition case_ignorable_ranges : list (N * N) :=
  [(39, 39); (46, 46); (58, 58); (94, 94); (96, 96); (168, 168);
   (173, 173); (175, 175); (180, 180); (183, 184); (688, 879); (884, 885);
   (890, 890); (900, 901); (903, 903); (1155, 1161); (1369, 1369);
   (1375, 1375); (1425, 1469); (1471, 1471); (1473, 1474); (1476, 1477);
   (1479, 1479); (1524, 1524); (1536, 1541); (1552, 1562); (1564, 1564);
   (1600, 1600); (1611, 1631); (1648, 1648); (1750, 1757); (1759, 1768);
   (1770, 1773); (1807, 1807); (1809, 1809); (1840, 1866); (1958, 1968);
   (2027, 2037); (2042, 2042); (2045, 2045); (2070, 2093); (2137, 2139);
   (2184, 2184); (2192, 2193); (2200, 2207); (2249, 2306); (2362, 2362);
   (2364, 2364); (2369, 2376); (2381, 2381); (2385, 2391); (2402, 2403);
   (2417, 2417); (2433, 2433); (2492, 2492); (2497, 2500); (2509, 2509);
   (2530, 2531); (2558, 2558); (2561, 2562); (2620, 2620); (2625, 2626);
   (2631, 2632); (2635, 2637); (2641, 2641); (2672, 2673); (2677, 2677);
   (2689, 2690); (2748, 2748); (2753, 2757); (2759, 2760); (2765, 2765);
   (2786, 2787); (2810, 2815); (2817, 2817); (2876, 2876); (2879, 2879);
   (2881, 2884); (2893, 2893); (2901, 2902); (2914, 2915); (2946, 2946);
   (3008, 3008); (3021, 3021); (3072, 3072); (3076, 3076); (3132, 3132);
   (3134, 3136); (3142, 3144); (3146, 3149); (3157, 3158); (3170, 3171);
   (3201, 3201); (3260, 3260); (3263, 3263); (3270, 3270); (3276, 3277);
   (3298, 3299); (3328, 3329); (3387, 3388); (3393, 3396); (3405, 3405);
   (3426, 3427); (3457, 3457); (3530, 3530); (3538, 3540); (3542, 3542);
   (3633, 3633); (3636, 3642); (3654, 3662); (3761, 3761); (3764, 3772);
   (3782, 3782); (3784, 3789); (3864, 3865); (3893, 3893); (3895, 3895);
   (3897, 3897); (3953, 3966); (3968, 3972); (3974, 3975); (3981, 3991);
   (3993, 4028); (4038, 4038); (4141, 4144); (4146, 4151); (4153, 4154);
   (4157, 4158); (4184, 4185); (4190, 4192); (4209, 4212); (4226, 4226);
   (4229, 4230); (4237, 4237); (4253, 4253); (4348, 4348); (4957, 4959);
   (5906, 5908); (5938, 5939); (5970, 5971); (6002, 6003); (6068, 6069);
   (6071, 6077); (6086, 6086); (6089, 6099); (6103, 6103); (6109, 6109);
   (6155, 6159); (6211, 6211); (6277, 6278); (6313, 6313); (6432, 6434);
   (6439, 6440); (6450, 6450); (6457, 6459); (6679, 6680); (6683, 6683);
   (6742, 6742); (6744, 6750); (6752, 6752); (6754, 6754); (6757, 6764);
   (6771, 6780); (6783, 6783); (6823, 6823); (6832, 6862); (6912, 6915);
   (6964, 6964); (6966, 6970); (6972, 6972); (6978, 6978); (7019, 7027);
   (7040, 7041); (7074, 7077); (7080, 7081); (7083, 7085); (7142, 7142);
   (7144, 7145); (7149, 7149); (7151, 7153); (7212, 7219); (7222, 7223);
   (7288, 7293); (7376, 7378); (7380, 7392); (7394, 7400); (7405, 7405);
   (7412, 7412); (7416, 7417); (7468, 7530); (7544, 7544); (7579, 7679);
   (8125, 8125); (8127, 8129); (8141, 8143); (8157, 8159); (8173, 8175);
   (8189, 8190); (8203, 8207); (8216, 8217); (8228, 8228); (8231, 8231);
   (8234, 8238); (8288, 8292); (8294, 8303); (8305, 8305); (8319, 8319);
   (8336, 8348); (8400, 8432); (11388, 11389); (11503, 11505);
   (11631, 11631); (11647, 11647); (11744, 11775); (11823, 11823);
   (12293, 12293); (12330, 12333); (12337, 12341); (12347, 12347);
   (12441, 12446); (12540, 12542); (40981, 40981); (42232, 42237);
   (42508, 42508); (42607, 42610); (42612, 42621); (42623, 42623);
   (42652, 42655); (42736, 42737); (42752, 42785); (42864, 42864);
   (42888, 42890); (42994, 42996); (43000, 43001); (43010, 43010);
   (43014, 43014); (43019, 43019); (43045, 43046); (43052, 43052);
   (43204, 43205); (43232, 43249); (43263, 43263); (43302, 43309);
   (43335, 43345); (43392, 43394); (43443, 43443); (43446, 43449);
   (43452, 43453); (43471, 43471); (43493, 43494); (43561, 43566);
   (43569, 43570); (43573, 43574); (43587, 43587); (43596, 43596);
   (43632, 43632); (43644, 43644); (43696, 43696); (43698, 43700);
   (43703, 43704); (43710, 43711); (43713, 43713); (43741, 43741);
   (43756, 43757); (43763, 43764); (43766, 43766); (43867, 43871);
   (43881, 43883); (44005, 44005); (44008, 44008); (44013, 44013);
   (64286, 64286); (64434, 64450); (65024, 65039); (65043, 65043);
   (65056, 65071); (65106, 65106); (65109, 65109); (65279, 65279);
   (65287, 65287); (65294, 65294); (65306, 65306); (65342, 65342);
   (65344, 65344); (65392, 65392); (65438, 65439); (65507, 65507);
   (65529, 65531); (66045, 66045); (66272, 66272); (66422, 66426);
   (67456, 67461); (67463, 67504); (67506, 67514); (68097, 68099);
   (68101, 68102); (68108, 68111); (68152, 68154); (68159, 68159);
   (68325, 68326); (68900, 68903); (69291, 69292); (69446, 69456);
   (69506, 69509); (69633, 69633); (69688, 69702); (69744, 69744);
   (69747, 69748); (69759, 69761); (69811, 69814); (69817, 69818);
   (69821, 69821); (69826, 69826); (69837, 69837); (69888, 69890);
   (69927, 69931); (69933, 69940); (70003, 70003); (70016, 70017);
   (70070, 70078); (70089, 70092); (70095, 70095); (70191, 70193);
   (70196, 70196); (70198, 70199); (70206, 70206); (70367, 70367);
   (70371, 70378); (70400, 70401); (70459, 70460); (70464, 70464);
   (70502, 70508); (70512, 70516); (70712, 70719); (70722, 70724);
   (70726, 70726); (70750, 70750); (70835, 70840); (70842, 70842);
   (70847, 70848); (70850, 70851); (71090, 71093); (71100, 71101);
   (71103, 71104); (71132, 71133); (71219, 71226); (71229, 71229);
   (71231, 71232); (71339, 71339); (71341, 71341); (71344, 71349);
   (71351, 71351); (71453, 71455); (71458, 71461); (71463, 71467);
   (71727, 71735); (71737, 71738); (71995, 71996); (71998, 71998);
   (72003, 72003); (72148, 72151); (72154, 72155); (72160, 72160);
   (72193, 72202); (72243, 72248); (72251, 72254); (72263, 72263);
   (72273, 72278); (72281, 72283); (72330, 72342); (72344, 72345);
   (72752, 72758); (72760, 72765); (72767, 72767); (72850, 72871);
   (72874, 72880); (72882, 72883); (72885, 72886); (73009, 73014);
   (73018, 73018); (73020, 73021); (73023, 73029); (73031, 73031);
   (73104, 73105); (73109, 73109); (73111, 73111); (73459, 73460);
   (78896, 78904); (92912, 92916); (92976, 92982); (92992, 92995);
   (94031, 94031); (94095, 94111); (94176, 94177); (94179, 94180);
   (110576, 110579); (110581, 110587); (110589, 110590); (113821, 113822);
   (113824, 113827); (118528, 118573); (118576, 118598); (119143, 119145);
   (119155, 119170); (119173, 119179); (119210, 119213); (119362, 119364);
   (121344, 121398); (121403, 121452); (121461, 121461); (121476, 121476);
   (121499, 121503); (121505, 121519); (122880, 122886); (122888, 122904);
   (122907, 122913); (122915, 122916); (122918, 122922); (123184, 123197);
   (123566, 123566); (123628, 123631); (125136, 125142); (125252, 125259);
   (127995, 127999); (917505, 917505); (917536, 917631); (917760, 917999)]%N.

Definition cased (c : char) : bool := in_ranges cased_ranges c.

Definition case_ignorable (c : char) : bool :=
  in_ranges case_ignorable_ranges c.

Fixpoint skip_ignorable (s : str) : str :=
  match s with
  | c :: s' => if case_ignorable c then skip_ignorable s' else s
  | [] => []
  end.

(** Whether a capital sigma stands at the end of a word
    ([handle_capital_sigma]): going back over the case-ignorable code
    points there is a cased one, and going forward over the
    case-ignorable code points there is none. [before] holds the code
    points before the sigma, the nearest first. *)
Definition final_sigma (before after : str) : bool :=
  match skip_ignorable before with
  | c :: _ =>
      cased c
      && match skip_ignorable after with
         | c' :: _ => negb (cased c')
         | [] => true
         end
  | [] => false
  end.

(** The lowercase form of [c] between [before] and [after], as
    [str.lower] computes it: capital sigma (U+03A3) becomes the final
    sigma (U+03C2) at the end of a word and the small sigma (U+03C3)
    elsewhere; U+0130 (capital I with dot above) becomes the two code
    points U+0069 U+0307; every other code point has its simple
    lowercase mapping. *)
Definition lower_at (before : str) (c : char) (after : str) : str :=
  if N.eqb c 931 then [if final_sigma before after then 962%N else 963%N]
  else if N.eqb c 304 then [105%N; 775%N]
  else [tolower c].

Fixpoint lower_from (before s : str) : str :=
  match s with
  | [] => []
  | c :: s' => lower_at before c s' ++ lower_from (c :: before) s'
  end.

(** [s.lower()] *)
Definition lower (s : str) : str := lower_from [] s.

Fixpoint startswith (s p : str) : bool :=
  match p, s with
  | [], _ => true
  | x :: p', y :: s' => char_eqb x y && startswith s' p'
  | _ :: _, [] => false
  end.

(** [needle in hay] *)
Fixpoint contains (hay needle : str) : bool :=
  startswith hay needle
  || match hay with
     | [] => false
     | _ :: hay' => contains hay' needle
     end.

(** [s[a:b]] for non-negative [a] and [b]. *)
Definition slice (s : str) (a b : Z) : str :=
  firstn (Z.to_nat (b - a)) (skipn (Z.to_nat a) s).

(** [len(s)] *)
Definition len (A : Type) (l : list A) : Z := Z.of_nat (length l).

(** [str(n)] for a non-negative integer. *)
Definition str_of_nat (n : nat) : str :=
  lit (NilZero.string_of_uint (Nat.to_uint n)).

(** [s.encode()]: UTF-8. *)
Definition encode_char (c : char) : list N :=
  if N.ltb c 128 then [c]
  else if N.ltb c 2048 then
    [N.lor 192 (N.shiftr c 6); N.lor 128 (N.land c 63)]
  else if N.ltb c 65536 then
    [N.lor 224 (N.shiftr c 12);
     N.lor 128 (N.land (N.shiftr c 6) 63);
     N.lor 128 (N.land c 63)]
  else
    [N.lor 240 (N.shiftr c 18);
     N.lor 128 (N.land (N.shiftr c 12) 63);
     N.lor 128 (N.land (N.shiftr c 6) 63);
     N.lor 128 (N.land c 63)].

Definition encode (s : str) : list N := flat_map encode_char s.

End PyStr.

Import PyStr.

(* ================================================================== *)
(** * The [re] module: backtracking matcher *)
(* ================================================================== *)

Module Re.

(** Abstract syntax of the patterns that occur in the program.
    Groups only delimit alternations here (no group other than group 0
    is read, and no pattern passed to [re.split] has a group). *)
Inductive regex : Type :=
| Eps
| Lit (c : char)
| Any                       (* [.]: anything but a newline *)
| Digit                     (* [\d] *)
| Space                     (* [\s] *)
| OneOf (cs : list char)    (* [[...]] *)
| Seq (r1 r2 : regex)
| Alt (r1 r2 : regex)       (* [r1|r2], the left branch is tried first *)
| Star (r : regex).         (* greedy [r*] *)

Definition Plus (r : regex) : regex := Seq r (Star r).

Fixpoint seq (rs : list regex) : regex :=
  match rs with
  | [] => Eps
  | [r] => r
  | r :: rs' => Seq r (seq rs')
  end.

Fixpoint alt (r : regex) (rs : list regex) : regex :=
  match rs with
  | [] => r
  | r' :: rs' => Alt r (alt r' rs')
  end.

(** The literal text [s]. *)
Definition text (s : string) : regex := seq (map Lit (lit s)).
Arguments text s%_string.

(** Whether pattern literal [p] accepts [c]. Under [IGNORECASE] the
    comparison is made on simple lowercase mappings, and [i] and [s]
    also accept dotless i (U+0131) and long s (U+017F). *)
Definition lit_match (ignorecase : bool) (p c : char) : bool :=
  if ignorecase then
    let lp := tolower p in
    let lc := tolower c in
    N.eqb lc lp
    || (N.eqb lp 105 && N.eqb lc 305)
    || (N.eqb lp 115 && N.eqb lc 383)
  else N.eqb c p.

(** [rmatch ic r s k]: match [r] at the head of [s], then continue with
    [k] on what is left; alternatives are explored in the order of the
    backtracking engine (left branch first, longest repetition first).
    The result is the input left after the whole match.
    An iteration of a starred pattern that consumes nothing ends the
    repetition; the starred patterns of this program consume one
    character per iteration. *)
Fixpoint rmatch (ic : bool) (r : regex) (s : str)
         (k : str -> option str) {struct r} : option str :=
  match r with
  | Eps => k s
  | Lit p =>
      match s with
      | c :: s' => if lit_match ic p c then k s' else None
      | [] => None
      end
  | Any =>
      match s with
      | c :: s' => if N.eqb c 10 then None else k s'
      | [] => None
      end
  | Digit =>
      match s with
      | c :: s' => if isdecimal c then k s' else None
      | [] => None
      end
  | Space =>
      match s with
      | c :: s' => if isspace c then k s' else None
      | [] => None
      end
  | OneOf cs =>
      match s with
      | c :: s' => if existsb (N.eqb c) cs then k s' else None
      | [] => None
      end
  | Seq r1 r2 => rmatch ic r1 s (fun s' => rmatch ic r2 s' k)
  | Alt r1 r2 =>
      match rmatch ic r1 s k with
      | Some rest => Some rest
      | None => rmatch ic r2 s k
      end
  | Star r1 =>
      (fix star (n : nat) (s : str) {struct n} : option str :=
         match n with
         | O => k s
         | S n' =>
             match rmatch ic r1 s
                     (fun s' => if Nat.ltb (length s') (length s)
                                then star n' s' else None) with
             | Some rest => Some rest
             | None => k s
             end
         end) (length s) s
  end.

(** A match object: [start()], [end()] and [group(0)]. *)
Record re_match := {
  m_start : nat;
  m_end : nat;
  group0 : str
}.

(** Scan [s], which starts at offset [pos] of the subject, from left to
    right; [skip] characters belong to the previous match and are
    passed over, so that matches do not overlap. No pattern of this
    program matches the empty string; after an empty match the scan
    moves on by one character. *)
Fixpoint scan (ic : bool) (r : regex) (s : str) (pos skip : nat)
  : list re_match :=
  match s with
  | [] =>
      match skip, rmatch ic r [] Some with
      | O, Some _ => [ {| m_start := pos; m_end := pos; group0 := [] |} ]
      | _, _ => []
      end
  | _ :: s' =>
      match skip with
      | S j => scan ic r s' (S pos) j
      | O =>
          match rmatch ic r s Some with
          | Some rest =>
              let n := length s - length rest in
              {| m_start := pos; m_end := pos + n; group0 := firstn n s |}
              :: scan ic r s' (S pos) (pred n)
          | None => scan ic r s' (S pos) 0
          end
      end
  end.

(** [re.finditer(r, s, flags)] *)
Definition finditer (r : regex) (s : str) (ignorecase : bool)
  : list re_match :=
  scan ignorecase r s 0 0.

(** Cut [s], which starts at offset [pos], at the given matches. *)
Fixpoint cut (ms : list re_match) (pos : nat) (s : str) : list str :=
  match ms with
  | [] => [s]
  | m :: ms' =>
      firstn (m_start m - pos) s
      :: cut ms' (m_end m) (skipn (m_end m - pos) s)
  end.

(** [re.split(r, s)] for a pattern without groups. *)
Definition split (r : regex) (s : str) : list str :=
  cut (finditer r s false) 0 s.

End Re.

(* ================================================================== *)
(** * [hashlib.md5] *)
(* ================================================================== *)

Module Md5.

Local Open Scope Z_scope.

Definition w32 (x : Z) : Z := Z.land x 4294967295.

Definition rotl (x c : Z) : Z :=
  w32 (Z.lor (Z.shiftl x c) (Z.shiftr x (32 - c))).

Definition shifts : list Z :=
  [7; 12; 17; 22; 7; 12; 17; 22; 7; 12; 17; 22; 7; 12; 17; 22;
   5; 9; 14; 20; 5; 9; 14; 20; 5; 9; 14; 20; 5; 9; 14; 20;
   4; 11; 16; 23; 4; 11; 16; 23; 4; 11; 16; 23; 4; 11; 16; 23;
   6; 10; 15; 21; 6; 10; 15; 21; 6; 10; 15; 21; 6; 10; 15; 21].

(** [floor (2^32 * abs (sin (i + 1)))] for [i] from 0 to 63. *)
Definition sines : list Z :=
  [
   3614090360; 3905402710; 606105819; 3250441966;
   4118548399; 1200080426; 2821735955; 4249261313;
   1770035416; 2336552879; 4294925233; 2304563134;
   1804603682; 4254626195; 2792965006; 1236535329;
   4129170786; 3225465664; 643717713; 3921069994;
   3593408605; 38016083; 3634488961; 3889429448;
   568446438; 3275163606; 4107603335; 1163531501;
   2850285829; 4243563512; 1735328473; 2368359562;
   4294588738; 2272392833; 1839030562; 4259657740;
   2763975236; 1272893353; 4139469664; 3200236656;
   681279174; 3936430074; 3572445317; 76029189;
   3654602809; 3873151461; 530742520; 3299628645;
   4096336452; 1126891415; 2878612391; 4237533241;
   1700485571; 2399980690; 4293915773; 2240044497;
   1873313359; 4264355552; 2734768916; 1309151649;
   4149444226; 3174756917; 718787259; 3951481745].

(** Little-endian value of a sequence of bytes. *)
Fixpoint le_word (bs : list Z) : Z :=
  match bs with
  | [] => 0
  | b :: bs' => b + 256 * le_word bs'
  end.

(** The [n] low bytes of [x], least significant first. *)
Fixpoint le_bytes (n : nat) (x : Z) : list Z :=
  match n with
  | O => []
  | S n' => Z.land x 255 :: le_bytes n' (Z.shiftr x 8)
  end.

(** Message padding: a one bit, zeros up to 56 modulo 64, and the
    length in bits on 64 bits. *)
Definition pad (msg : list Z) : list Z :=
  let n := Z.of_nat (length msg) in
  let zeros := Z.to_nat ((55 - n) mod 64) in
  msg ++ [128] ++ repeat 0 zeros ++ le_bytes 8 (8 * n).

(** The sixteen words of a 64-byte block. *)
Fixpoint words (n : nat) (block : list Z) : list Z :=
  match n with
  | O => []
  | S n' => le_word (firstn 4 block) :: words n' (skipn 4 block)
  end.

Definition state : Type := Z * Z * Z * Z.

Definition round (m : list Z) (st : state) (i : nat) : state :=
  let '(a, b, c, d) := st in
  let iz := Z.of_nat i in
  let '(f, g) :=
    if Nat.ltb i 16 then
      (Z.lor (Z.land b c) (Z.land (Z.lxor b 4294967295) d), iz)
    else if Nat.ltb i 32 then
      (Z.lor (Z.land d b) (Z.land (Z.lxor d 4294967295) c),
       (5 * iz + 1) mod 16)
    else if Nat.ltb i 48 then
      (Z.lxor b (Z.lxor c d), (3 * iz + 5) mod 16)
    else
      (Z.lxor c (Z.lor b (Z.lxor d 4294967295)), (7 * iz) mod 16) in
  let f' := w32 (f + a + nth i sines 0 + nth (Z.to_nat g) m 0) in
  (d, w32 (b + rotl f' (nth i shifts 0)), b, c).

Definition compress (st : state) (block : list Z) : state :=
  let m := words 16 block in
  let '(a, b, c, d) := fold_left (round m) (seq 0 64) st in
  let '(a0, b0, c0, d0) := st in
  (w32 (a0 + a), w32 (b0 + b), w32 (c0 + c), w32 (d0 + d)).

(** Process the padded message block by block. *)
Fixpoint blocks (n : nat) (st : state) (msg : list Z) : state :=
  match n with
  | O => st
  | S n' => blocks n' (compress st (firstn 64 msg)) (skipn 64 msg)
  end.

Definition init : state := (1732584193, 4023233417, 2562383102, 271733878).

(** [hashlib.md5(msg).digest()] *)
Definition digest (msg : list N) : list Z :=
  let p := pad (map Z.of_N msg) in
  let '(a, b, c, d) := blocks (length p / 64) init p in
  le_bytes 4 a ++ le_bytes 4 b ++ le_bytes 4 c ++ le_bytes 4 d.

Definition hex_digit (x : Z) : char :=
  Z.to_N (if x <? 10 then 48 + x else 87 + x).

Definition hex_byte (b : Z) : str :=
  [hex_digit (Z.shiftr b 4); hex_digit (Z.land b 15)].

(** [hashlib.md5(msg).hexdigest()] *)
Definition hexdigest (msg : list N) : str :=
  flat_map hex_byte (digest msg).

End Md5.

(* ================================================================== *)
(** * [list.sort] *)
(* ================================================================== *)

Module PyList.

Section Sort.
Variable A : Type.
Variable key : A -> Z.

(** [x] is placed before the first element whose key is not smaller
    than its own, so elements with equal keys keep their order. *)
Fixpoint insert (x : A) (l : list A) : list A :=
  match l with
  | [] => [x]
  | y :: l' => if Z.leb (key x) (key y) then x :: l else y :: insert x l'
  end.

(** [l.sort(key=key)]: the sort of Python is stable. *)
Fixpoint sort (l : list A) : list A :=
  match l with
  | [] => []
  | x :: l' => insert x (sort l')
  end.
End Sort.

End PyList.

(* ================================================================== *)
(** * risk_analyzer.py *)
(* ================================================================== *)

Inductive severity_level : Type := high | medium | low.

Definition severity_name (s : severity_level) : str :=
  match s with
  | high => lit "high"
  | medium => lit "medium"
  | low => lit "low"
  end.

Definition severity_eqb (a b : severity_level) : bool :=
  match a, b with
  | high, high | medium, medium | low, low => true
  | _, _ => false
  end.

(** An entry of [RISK_PATTERNS]. *)
Module Pattern.
Record t := {
  name : str;
  pattern : Re.regex;
  severity : severity_level;
  explanation : str
}.
End Pattern.

(** A detected risk, the dictionary built by [analyze]; the key
    [suggested_rewrite] is absent until the orchestrator sets it. *)
Module Risk.
Record t := {
  id : str;
  clause : str;
  risk_type : str;
  severity : severity_level;
  explanation : str;
  original_text : str;
  start_position : Z;
  end_position : Z;
  suggested_rewrite : option str
}.
End Risk.

Module RiskAnalyzer.

Import Re Pattern.

Definition RISK_PATTERNS : list Pattern.t :=
  [
  {| name := lit "Unlimited Liability";
     (* (unlimited liability|without limitation|no limit on damages|liable for all|full liability) *)
     pattern :=
       alt (text "unlimited liability")
           [text "without limitation";
            text "no limit on damages";
            text "liable for all";
            text "full liability"];
     severity := high;
     explanation :=
       lit "This clause may expose you to unlimited financial liability without any cap on damages." |};
  {| name := lit "Automatic Renewal";
     (* (automatically renew|auto-renew|automatic extension|renew automatically) *)
     pattern :=
       alt (text "automatically renew")
           [text "auto-renew";
            text "automatic extension";
            text "renew automatically"];
     severity := medium;
     explanation :=
       lit "The contract may automatically renew without your explicit consent, potentially locking you into unwanted terms." |};
  {| name := lit "Arbitration Clause";
     (* (binding arbitration|arbitration agreement|resolve.*arbitration|submit to arbitration) *)
     pattern :=
       alt (text "binding arbitration")
           [text "arbitration agreement";
            seq [text "resolve"; Star Any; text "arbitration"];
            text "submit to arbitration"];
     severity := medium;
     explanation :=
       lit "This clause requires disputes to be resolved through arbitration rather than court, which may limit your legal options." |};
  {| name := lit "Waiver of Rights";
     (* (waive.*rights|waiver of|give up.*rights|surrender.*rights|forfeit.*rights) *)
     pattern :=
       alt (seq [text "waive"; Star Any; text "rights"])
           [text "waiver of";
            seq [text "give up"; Star Any; text "rights"];
            seq [text "surrender"; Star Any; text "rights"];
            seq [text "forfeit"; Star Any; text "rights"]];
     severity := high;
     explanation :=
       lit "You may be waiving important legal rights, which could limit your ability to seek remedies." |};
  {| name := lit "Indemnification";
     (* (shall indemnify|agree to indemnify|indemnify.*hold harmless|defend.*indemnify) *)
     pattern :=
       alt (text "shall indemnify")
           [text "agree to indemnify";
            seq [text "indemnify"; Star Any; text "hold harmless"];
            seq [text "defend"; Star Any; text "indemnify"]];
     severity := high;
     explanation :=
       lit "You may be required to compensate the other party for losses, even those not caused by you." |};
  {| name := lit "Non-Compete Clause";
     (* (non-compete|non compete|shall not compete|refrain from competing|prohibited from competing) *)
     pattern :=
       alt (text "non-compete")
           [text "non compete";
            text "shall not compete";
            text "refrain from competing";
            text "prohibited from competing"];
     severity := high;
     explanation :=
       lit "This restricts your ability to work in similar fields or industries after termination." |};
  {| name := lit "Confidentiality Obligations";
     (* (confidential information|maintain confidentiality|non-disclosure|NDA|trade secrets) *)
     pattern :=
       alt (text "confidential information")
           [text "maintain confidentiality";
            text "non-disclosure";
            text "NDA";
            text "trade secrets"];
     severity := medium;
     explanation :=
       lit "You may have ongoing obligations to protect confidential information, even after contract termination." |};
  {| name := lit "Termination Penalties";
     (* (early termination.*fee|penalty.*termination|liquidated damages|termination.*penalty) *)
     pattern :=
       alt (seq [text "early termination"; Star Any; text "fee"])
           [seq [text "penalty"; Star Any; text "termination"];
            text "liquidated damages";
            seq [text "termination"; Star Any; text "penalty"]];
     severity := high;
     explanation :=
       lit "Ending the contract early may result in significant financial penalties." |};
  {| name := lit "Intellectual Property Transfer";
     (* (transfer.*intellectual property|assign.*IP|all rights.*belong|ownership.*work product) *)
     pattern :=
       alt (seq [text "transfer"; Star Any; text "intellectual property"])
           [seq [text "assign"; Star Any; text "IP"];
            seq [text "all rights"; Star Any; text "belong"];
            seq [text "ownership"; Star Any; text "work product"]];
     severity := high;
     explanation :=
       lit "You may be transferring ownership of intellectual property or creative work without retaining any rights." |};
  {| name := lit "Unilateral Modification";
     (* (modify.*at.*discretion|change.*without notice|reserve.*right.*modify|unilaterally.*change) *)
     pattern :=
       alt (seq [text "modify"; Star Any; text "at"; Star Any; text "discretion"])
           [seq [text "change"; Star Any; text "without notice"];
            seq [text "reserve"; Star Any; text "right"; Star Any; text "modify"];
            seq [text "unilaterally"; Star Any; text "change"]];
     severity := high;
     explanation :=
       lit "The other party can change the terms without your consent or notification." |};
  {| name := lit "Broad Disclaimers";
     (* (as is|without warranty|no warranties|disclaim.*warranties|all warranties.*disclaimed) *)
     pattern :=
       alt (text "as is")
           [text "without warranty";
            text "no warranties";
            seq [text "disclaim"; Star Any; text "warranties"];
            seq [text "all warranties"; Star Any; text "disclaimed"]];
     severity := medium;
     explanation :=
       lit "The provider disclaims warranties, meaning you may have no recourse if the product or service is defective." |};
  {| name := lit "Limitation of Liability";
     (* (limit.*liability|liability.*limited|not liable for|no liability|exclude.*liability) *)
     pattern :=
       alt (seq [text "limit"; Star Any; text "liability"])
           [seq [text "liability"; Star Any; text "limited"];
            text "not liable for";
            text "no liability";
            seq [text "exclude"; Star Any; text "liability"]];
     severity := medium;
     explanation :=
       lit "The other party limits their liability, potentially capping damages you can recover." |};
  {| name := lit "Assignment Rights";
     (* (may assign|right to assign|transfer.*agreement|assign.*rights|assignment of) *)
     pattern :=
       alt (text "may assign")
           [text "right to assign";
            seq [text "transfer"; Star Any; text "agreement"];
            seq [text "assign"; Star Any; text "rights"];
            text "assignment of"];
     severity := medium;
     explanation :=
       lit "The contract may be transferred to another party without your consent." |};
  {| name := lit "Governing Law";
     (* (governed by.*laws|jurisdiction.*shall be|exclusive jurisdiction|venue.*shall be) *)
     pattern :=
       alt (seq [text "governed by"; Star Any; text "laws"])
           [seq [text "jurisdiction"; Star Any; text "shall be"];
            text "exclusive jurisdiction";
            seq [text "venue"; Star Any; text "shall be"]];
     severity := low;
     explanation :=
       lit "Disputes must be resolved under specific laws or in specific jurisdictions, which may be inconvenient." |};
  {| name := lit "Entire Agreement";
     (* (entire agreement|complete agreement|supersedes.*agreements|prior.*agreements.*void) *)
     pattern :=
       alt (text "entire agreement")
           [text "complete agreement";
            seq [text "supersedes"; Star Any; text "agreements"];
            seq [text "prior"; Star Any; text "agreements"; Star Any; text "void"]];
     severity := low;
     explanation :=
       lit "This clause voids all previous agreements or understandings not included in this document." |};
  {| name := lit "Force Majeure";
     (* (force majeure|act of god|beyond.*control|unforeseen circumstances) *)
     pattern :=
       alt (text "force majeure")
           [text "act of god";
            seq [text "beyond"; Star Any; text "control"];
            text "unforeseen circumstances"];
     severity := low;
     explanation :=
       lit "The contract may be suspended or terminated due to events beyond either party's control." |};
  {| name := lit "Payment Terms";
     (* (payment.*due|non-refundable|no refund|refund.*not.*available|all sales final) *)
     pattern :=
       alt (seq [text "payment"; Star Any; text "due"])
           [text "non-refundable";
            text "no refund";
            seq [text "refund"; Star Any; text "not"; Star Any; text "available"];
            text "all sales final"];
     severity := medium;
     explanation :=
       lit "Payment terms may be restrictive, with limited or no refund options." |};
  {| name := lit "Data Collection";
     (* (collect.*data|personal information|user data|tracking|cookies|analytics) *)
     pattern :=
       alt (seq [text "collect"; Star Any; text "data"])
           [text "personal information";
            text "user data";
            text "tracking";
            text "cookies";
            text "analytics"];
     severity := medium;
     explanation :=
       lit "Your personal data may be collected, stored, or shared with third parties." |};
  {| name := lit "Class Action Waiver";
     (* (waive.*class action|no class action|class action.*waived|individual basis only) *)
     pattern :=
       alt (seq [text "waive"; Star Any; text "class action"])
           [text "no class action";
            seq [text "class action"; Star Any; text "waived"];
            text "individual basis only"];
     severity := high;
     explanation :=
       lit "You cannot join a class action lawsuit and must pursue claims individually." |};
  {| name := lit "Severability";
     (* (severability|severable|invalid.*provision|unenforceable.*provision) *)
     pattern :=
       alt (text "severability")
           [text "severable";
            seq [text "invalid"; Star Any; text "provision"];
            seq [text "unenforceable"; Star Any; text "provision"]];
     severity := low;
     explanation :=
       lit "If part of the contract is invalid, the rest remains in effect." |};
  {| name := lit "Notice Requirements";
     (* (written notice|notice.*required|provide.*notice|notify.*in writing) *)
     pattern :=
       alt (text "written notice")
           [seq [text "notice"; Star Any; text "required"];
            seq [text "provide"; Star Any; text "notice"];
            seq [text "notify"; Star Any; text "in writing"]];
     severity := low;
     explanation :=
       lit "Specific notice procedures must be followed, which could affect your ability to exercise rights." |};
  {| name := lit "Survival Clauses";
     (* (survive.*termination|survive expiration|obligations.*continue|remain in effect) *)
     pattern :=
       alt (seq [text "survive"; Star Any; text "termination"])
           [text "survive expiration";
            seq [text "obligations"; Star Any; text "continue"];
            text "remain in effect"];
     severity := medium;
     explanation :=
       lit "Certain obligations continue even after the contract ends." |}
  ].

(** [severity_order = {"high": 0, "medium": 1, "low": 2}] *)
Definition severity_order (s : severity_level) : Z :=
  match s with
  | high => 0
  | medium => 1
  | low => 2
  end.

(** [r'[.!?]\s+'] *)
Definition sentence_re : regex := Seq (OneOf (lit ".!?")) (Plus Space).

(** [hashlib.md5(f"{name}:{context}".encode()).hexdigest()[:12]] *)
Definition fingerprint (name context : str) : str :=
  firstn 12 (Md5.hexdigest (encode (name ++ lit ":" ++ context))).

(** The clause text of a match: the first sentence that contains the
    matched text, or else the window of 100 characters around it. *)
Definition context_of (text : str) (sentences : list str) (m : re_match)
  : str :=
  let match_start := Z.of_nat (m_start m) in
  let match_end := Z.of_nat (m_end m) in
  let context_start := Z.max 0 (match_start - 100) in
  let context_end := Z.min (len text) (match_end + 100) in
  let context := strip (slice text context_start context_end) in
  match find (fun sentence => contains (lower sentence) (group0 m))
             sentences with
  | Some sentence => strip sentence
  | None => context
  end.

(** The dictionary built for match [m] of [pattern_info]. *)
Definition make_risk (text : str) (sentences : list str)
           (pattern_info : Pattern.t) (m : re_match) : Risk.t :=
  let context := context_of text sentences m in
  {| Risk.id := fingerprint (name pattern_info) context;
     Risk.clause := context;
     Risk.risk_type := name pattern_info;
     Risk.severity := severity pattern_info;
     Risk.explanation := explanation pattern_info;
     Risk.original_text := group0 m;
     Risk.start_position := Z.of_nat (m_start m);
     Risk.end_position := Z.of_nat (m_end m);
     Risk.suggested_rewrite := None |}.

(** [if not any(r["id"] == clause_id for r in risks): risks.append(risk)] *)
Definition append_new (risks : list Risk.t) (risk : Risk.t) : list Risk.t :=
  if existsb (fun r => str_eqb (Risk.id r) (Risk.id risk)) risks
  then risks
  else risks ++ [risk].

(** Body of the loop over the matches of one pattern. *)
Definition scan_pattern (text text_lower : str) (sentences : list str)
           (risks : list Risk.t) (pattern_info : Pattern.t) : list Risk.t :=
  fold_left
    (fun risks m => append_new risks (make_risk text sentences pattern_info m))
    (finditer (pattern pattern_info) text_lower true)
    risks.

(** The risks collected by the two loops, before they are sorted. *)
Definition detect (risk_patterns : list Pattern.t) (text : str)
  : list Risk.t :=
  let text_lower := lower text in
  let sentences := split sentence_re text in
  fold_left (scan_pattern text text_lower sentences) risk_patterns [].

(** [RiskAnalyzer.analyze] *)
Definition analyze (text : str) : list Risk.t :=
  let risks := detect RISK_PATTERNS text in
  PyList.sort (fun x => severity_order (Risk.severity x)) risks.

End RiskAnalyzer.

(* ================================================================== *)
(** * Calls to the generation service *)
(* ================================================================== *)

Module Io.

(** An exception caught by [except Exception], with its [str(e)]. *)
Inductive exn : Type := Exception (msg : str).

Definition message (e : exn) : str :=
  match e with Exception msg => msg end.

Inductive outcome (A : Type) : Type :=
| Returned (a : A)
| Raised (e : exn).
Arguments Returned {A} a.
Arguments Raised {A} e.

(** The prompts sent to [generate_content] so far, oldest first. *)
Definition calls : Type := list str.

(** A computation that may call the service and may raise. Output
    written with [print] is not part of the model. *)
Definition io (A : Type) : Type := calls -> outcome A * calls.

Definition ret {A} (a : A) : io A := fun log => (Returned a, log).

Definition raise {A} (e : exn) : io A := fun log => (Raised e, log).

Definition bind {A B} (c : io A) (f : A -> io B) : io B :=
  fun log =>
    match c log with
    | (Returned a, log') => f a log'
    | (Raised e, log') => (Raised e, log')
    end.

(** [try: body  except Exception as e: handler e] *)
Definition try_except {A} (body : io A) (handler : exn -> io A) : io A :=
  fun log =>
    match body log with
    | (Returned a, log') => (Returned a, log')
    | (Raised e, log') => handler e log'
    end.

(** The configured model: the outcome of
    [model.generate_content(prompt).text]. *)
Definition GenerativeModel : Type := str -> outcome str.

Definition generate_content (model : GenerativeModel) (prompt : str)
  : io str :=
  fun log => (model prompt, log ++ [prompt]).

End Io.

Import Io.

Notation "x <- c1 ;; c2" := (bind c1 (fun x => c2))
  (at level 61, c1 at next level, right associativity).

Definition nl : str := [10%N].

(* ================================================================== *)
(** * rewrite_engine.py *)
(* ================================================================== *)

Module RewriteEngine.

(** The engine; [model] is [None] when no API key is configured or the
    initialisation failed. *)
Record t := { model : option GenerativeModel }.

Definition placeholder : str :=
  lit "Unable to generate rewrite for this clause.".

(** [r'REWRITE \d+:'] *)
Definition marker_re : Re.regex :=
  Re.seq [Re.text "REWRITE "; Re.Plus Re.Digit; Re.Lit 58%N].

(** [for i, clause in enumerate(clauses, 1): prompt += ...] *)
Fixpoint clause_lines (i : nat) (clauses : list str) (prompt : str) : str :=
  match clauses with
  | [] => prompt
  | clause :: rest =>
      clause_lines (S i) rest
        (prompt ++ lit "CLAUSE " ++ str_of_nat i ++ lit ":" ++ nl
                ++ clause ++ nl ++ nl)
  end.

Definition _build_rewrite_prompt (clauses : list str) : str :=
  let prompt := lit "You are a legal expert helping to rewrite contract clauses to be more balanced and fair to both parties. " in
  let prompt := prompt ++ lit "Provide clear, concise alternatives that protect both sides." ++ nl ++ nl in
  let prompt := prompt ++ lit "Please rewrite the following contract clauses to be more balanced and fair. " in
  let prompt := prompt ++ lit "For each clause, provide a safer alternative that protects both parties." ++ nl ++ nl in
  let prompt := clause_lines 1 clauses prompt in
  let prompt := prompt ++ lit "Provide rewrites in this format:" ++ nl in
  let prompt := prompt ++ lit "REWRITE 1: [your rewrite]" ++ nl in
  let prompt := prompt ++ lit "REWRITE 2: [your rewrite]" ++ nl in
  prompt ++ lit "etc.".

(** [for part in parts[1:]: ...] *)
Definition keep_part (rewrites : list str) (part : str) : list str :=
  let rewrite := strip part in
  match rewrite with
  | [] => rewrites
  | _ :: _ => rewrites ++ [rewrite]
  end.

(** [while len(rewrites) < expected_count: rewrites.append(...)];
    the loop runs at most [fuel] times. *)
Fixpoint pad_loop (fuel : nat) (rewrites : list str) (expected_count : Z)
  : list str :=
  match fuel with
  | O => rewrites
  | S fuel' =>
      if Z.ltb (len rewrites) expected_count
      then pad_loop fuel' (rewrites ++ [placeholder]) expected_count
      else rewrites
  end.

(** [l[:n]] *)
Definition take (A : Type) (l : list A) (n : Z) : list A :=
  if Z.ltb n 0 then firstn (Z.to_nat (len l + n)) l
  else firstn (Z.to_nat n) l.

Definition _parse_rewrites (response_text : str) (expected_count : Z)
  : list str :=
  let parts := Re.split marker_re response_text in
  let rewrites := fold_left keep_part (tl parts) [] in
  let rewrites :=
    match rewrites, strip response_text with
    | [], _ :: _ => rewrites ++ [strip response_text]
    | _, _ => rewrites
    end in
  let rewrites := pad_loop (Z.to_nat expected_count) rewrites expected_count in
  take rewrites expected_count.

Definition rewrite_clauses (self : t) (clauses : list str)
  : io (option (list str)) :=
  match model self with
  | None => ret None
  | Some m =>
      match clauses with
      | [] => ret (Some [])
      | _ :: _ =>
          try_except
            (let prompt := _build_rewrite_prompt clauses in
             rewritten_text <- generate_content m prompt ;;
             let rewrites := _parse_rewrites rewritten_text (len clauses) in
             ret (Some rewrites))
            (fun e => ret None)
      end
  end.

End RewriteEngine.

(* ================================================================== *)
(** * summary_engine.py *)
(* ================================================================== *)

Module SummaryEngine.

Record t := { model : option GenerativeModel }.

Definition not_configured : str :=
  [9888%N; 65039%N]
  ++ lit " Gemini API key not configured. Summary generation requires GEMINI_API_KEY environment variable.".

Definition too_short : str := lit "Document is too short to summarize.".

Definition indent : str := lit "            ".

Definition summary_prompt (text_preview : str) : str :=
  lit "You are a legal document analyst. Provide a clear, concise summary of this legal document focusing on:" ++ nl
  ++ indent ++ lit "- Key terms and obligations" ++ nl
  ++ indent ++ lit "- Parties involved" ++ nl
  ++ indent ++ lit "- Document's purpose and main clauses" ++ nl
  ++ indent ++ lit "- Important dates or conditions" ++ nl
  ++ indent ++ nl
  ++ indent ++ lit "Keep the summary under 200 words and make it easy to understand." ++ nl
  ++ indent ++ nl
  ++ indent ++ lit "Legal Document:" ++ nl
  ++ indent ++ text_preview ++ nl
  ++ indent ++ nl
  ++ indent ++ lit "Summary:".

Definition generate_summary (self : t) (text : str) : io str :=
  match model self with
  | None => ret not_configured
  | Some m =>
      if match text with [] => true | _ :: _ => false end
         || Z.ltb (len (strip text)) 50
      then ret too_short
      else
        try_except
          (let text_preview := firstn (Z.to_nat 8000) text in
           let prompt := summary_prompt text_preview in
           response_text <- generate_content m prompt ;;
           ret (strip response_text))
          (fun e => ret (lit "Unable to generate summary: " ++ message e))
  end.

End SummaryEngine.

(* ================================================================== *)
(** * main.py: [analyze_text] *)
(* ================================================================== *)

Module Main.

(** The record returned by the endpoint. *)
Record response := {
  analysis_id : Z;
  document_name : str;
  text_length : Z;
  risks_found : Z;
  risks : list Risk.t;
  original_text : str
}.

(** What the endpoint yields: the record, or [HTTPException]. *)
Inductive http_result : Type :=
| Ok (r : response)
| HTTPException (status_code : Z) (detail : str).

(** [risk["suggested_rewrite"] = v] *)
Definition set_suggested_rewrite (risk : Risk.t) (v : str) : Risk.t :=
  {| Risk.id := Risk.id risk;
     Risk.clause := Risk.clause risk;
     Risk.risk_type := Risk.risk_type risk;
     Risk.severity := Risk.severity risk;
     Risk.explanation := Risk.explanation risk;
     Risk.original_text := Risk.original_text risk;
     Risk.start_position := Risk.start_position risk;
     Risk.end_position := Risk.end_position risk;
     Risk.suggested_rewrite := Some v |}.

(** [for i, risk in enumerate(risks): if i < len(rewrites): ...],
    from index [i] on. *)
Fixpoint attach_from (i : nat) (rewrites : list str) (risks : list Risk.t)
  : list Risk.t :=
  match risks with
  | [] => []
  | risk :: rest =>
      (if Z.ltb (Z.of_nat i) (len rewrites)
       then set_suggested_rewrite risk (nth i rewrites [])
       else risk)
      :: attach_from (S i) rewrites rest
  end.

Definition attach (rewrites : list str) (risks : list Risk.t)
  : list Risk.t :=
  attach_from 0 rewrites risks.

(** Lines 244 to 253: the rewrites obtained and the risks after the
    merge. *)
Definition rewrite_step (rewrite_engine : RewriteEngine.t)
           (risks : list Risk.t) : io (option (list str) * list Risk.t) :=
  match risks with
  | [] => ret (None, risks)
  | _ :: _ =>
      try_except
        (rewrites <- RewriteEngine.rewrite_clauses rewrite_engine
                       (map Risk.clause risks) ;;
         match rewrites with
         | Some ((_ :: _) as rs) => ret (rewrites, attach rs risks)
         | _ => ret (rewrites, risks)
         end)
        (fun e => ret (None, risks))
  end.


Section Endpoint.

Variable summary_engine : SummaryEngine.t.
Variable rewrite_engine : RewriteEngine.t.

(** Storing the document and its analysis (the [db] calls): the
    identifier given to the analysis, or the exception raised. *)
Variable persist :
  str -> str -> list Risk.t -> option (list str) -> outcome Z.

Definition analyze_text (text : str) : io http_result :=
  try_except
    (let risks := RiskAnalyzer.analyze text in
     summary <- SummaryEngine.generate_summary summary_engine text ;;
     merged <- rewrite_step rewrite_engine risks ;;
     let '(rewrites, risks) := merged in
     id <- (fun log => (persist text summary risks rewrites, log)) ;;
     ret (Ok {| analysis_id := id;
                document_name := lit "Text Input";
                text_length := len text;
                risks_found := len risks;
                risks := risks;
                original_text := text |}))
    (fun e => ret (HTTPException 500 (message e))).

End Endpoint.

End Main.

(* ================================================================== *)
(** * Detection order, in the words of the specification *)
(* ================================================================== *)

Module Detection.

Import Re Pattern RiskAnalyzer.

(** Every match of every pattern as a risk, in pattern-table order and,
    within one pattern, in the order in which the matches are found. *)
Definition candidates (risk_patterns : list Pattern.t) (text : str)
  : list Risk.t :=
  flat_map
    (fun pattern_info =>
       map (make_risk text (split sentence_re text) pattern_info)
           (finditer (pattern pattern_info) (lower text) true))
    risk_patterns.

Definition seen_id (seen : list str) (i : str) : bool :=
  existsb (fun j => str_eqb j i) seen.

(** Keep, in order, the candidates whose fingerprint has not been seen
    before. *)
Fixpoint first_by_id (seen : list str) (cs : list Risk.t) : list Risk.t :=
  match cs with
  | [] => []
  | c :: cs' =>
      if seen_id seen (Risk.id c) then first_by_id seen cs'
      else c :: first_by_id (seen ++ [Risk.id c]) cs'
  end.

Definition nonempty (s : str) : bool :=
  match s with
  | [] => false
  | _ :: _ => true
  end.

(** The fields of a risk other than [suggested_rewrite]. *)
Definition frame (r : Risk.t) :=
  (Risk.id r, Risk.clause r, Risk.risk_type r, Risk.severity r,
   Risk.explanation r, Risk.original_text r,
   Risk.start_position r, Risk.end_position r).

Definition is_hex (c : char) : bool := between 48 57 c || between 97 102 c.

Definition by_rank (a b : Risk.t) : Prop :=
  (severity_order (Risk.severity a) <= severity_order (Risk.severity b))%Z.

Definition has_severity (s : severity_level) (r : Risk.t) : bool :=
  severity_eqb (Risk.severity r) s.

End Detection.

Import Detection.

(* ================================================================== *)
(** * The parsing contract, in the words of the specification *)
(* ================================================================== *)

Module Parsing.

Import RewriteEngine.


(** The text after each marker, trimmed, without the empty ones; the
    preamble before the first marker is not among them. *)
Definition segments (blob : str) : list str :=
  filter nonempty (map strip (tl (Re.split marker_re blob))).

(** The rewrites recovered from the blob: its segments, or the whole
    trimmed blob when there is no segment and the blob is not blank. *)
Definition recovered (blob : str) : list str :=
  match segments blob, strip blob with
  | [], _ :: _ => [strip blob]
  | segs, _ => segs
  end.

(** A risk carries no rewrite, or a non-empty one. *)
Definition rewrite_ok (r : Risk.t) : bool :=
  match Risk.suggested_rewrite r with
  | Some w => nonempty w
  | None => true
  end.

(** The contract of the parser read on the blob itself, without the
    pattern matcher. *)







End Parsing.

Import Parsing.

(* ================================================================== *)
(** * Offsets and clause texts, in the words of the specification *)
(* ================================================================== *)

Module Spans.

(** [rest] is what is left of [s] after a prefix. *)
Definition is_suffix (rest s : str) : Prop := exists p, s = p ++ rest.

Definition no_leading_space (s : str) : Prop :=
  match s with
  | [] => True
  | c :: _ => isspace c = false
  end.

(** No whitespace at either end. *)
Definition trimmed (s : str) : Prop :=
  no_leading_space s /\ no_leading_space (rev s).

(** Every code point but U+0130 has a lowercase form of one code
    point, so that [lower] keeps the offsets of a text made of such
    code points. *)
Definition keeps_offsets (text : str) : Prop :=
  Forall (fun c => c <> 304%N) text.

Definition is_letter (p : char) : bool := between 97 122 (tolower p).

(** Every match of [r] begins with a character accepted by a letter of
    the pattern. *)
Fixpoint starts_with_letter (r : Re.regex) : bool :=
  match r with
  | Re.Lit p => is_letter p
  | Re.Seq r1 _ => starts_with_letter r1
  | Re.Alt r1 r2 => starts_with_letter r1 && starts_with_letter r2
  | _ => false
  end.

(** [c] is a lowercase form of [c0]: its simple lowercase mapping, or
    the final sigma for a capital sigma. *)
Definition lowered (c0 c : char) : Prop :=
  c = tolower c0 \/ (c0 = 931%N /\ c = 962%N).

(** The offsets of a risk are those of its matched text in [text]:
    they lie within the text, and the matched text is, character by
    character, a lowercase form of the text between them. *)
Definition offsets_in (text : str) (r : Risk.t) : Prop :=
  (0 <= Risk.start_position r <= Risk.end_position r)%Z
  /\ (Risk.end_position r <= len text)%Z
  /\ Forall2 lowered
             (slice text (Risk.start_position r) (Risk.end_position r))
             (Risk.original_text r).

End Spans.

Import Spans.

(* ================================================================== *)
(** * [pathlib]: the suffix of a path *)
(* ================================================================== *)

Module PyPath.

(** [s.split(sep)], with the part being read in [cur]. *)
Fixpoint split_from (sep : char) (cur : str) (s : str) : list str :=
  match s with
  | [] => [cur]
  | c :: s' =>
      if char_eqb c sep then cur :: split_from sep [] s'
      else split_from sep (cur ++ [c]) s'
  end.

Definition split_on (sep : char) (s : str) : list str := split_from sep [] s.

(** The components of a POSIX path: empty components and [.] are
    dropped. *)
Definition parts (path : str) : list str :=
  filter (fun c => negb (str_eqb c [] || str_eqb c (lit ".")))
         (split_on 47%N path).

(** [Path(path).name]: the last component, or the empty string. *)
Definition name (path : str) : str := last (parts path) [].

(** [s.rfind(c)] as an index, when [c] occurs in [s]. *)
Fixpoint rfind (c : char) (s : str) : option nat :=
  match s with
  | [] => None
  | x :: s' =>
      match rfind c s' with
      | Some i => Some (S i)
      | None => if char_eqb x c then Some 0 else None
      end
  end.

(** [Path(path).suffix], as computed up to Python 3.13: what follows
    the last dot of the name, the dot included, unless that dot is the
    first or the last character of the name. *)
Definition suffix (path : str) : str :=
  let nm := name path in
  match rfind 46%N nm with
  | Some i =>
      if Nat.ltb 0 i && Nat.ltb i (length nm - 1) then skipn i nm else []
  | None => []
  end.

End PyPath.

(* ================================================================== *)
(** * document_processor.py *)
(* ================================================================== *)

Module DocumentProcessor.

(** The libraries that read the files: the text of each page of a PDF
    file, the text of each paragraph of a DOCX file, the content of a
    text file, or the exception raised while reading. *)
Record readers := {
  pdf_pages : str -> outcome (list str);
  docx_paragraphs : str -> outcome (list str);
  txt_read : str -> outcome str
}.

(** [for item in items: text += item + "\n"] *)
Fixpoint add_lines (text : str) (items : list str) : str :=
  match items with
  | [] => text
  | item :: rest => add_lines (text ++ item ++ nl) rest
  end.

Definition _extract_from_pdf (rd : readers) (file_path : str)
  : outcome str :=
  match pdf_pages rd file_path with
  | Returned pages => Returned (strip (add_lines [] pages))
  | Raised e => Raised e
  end.

Definition _extract_from_docx (rd : readers) (file_path : str)
  : outcome str :=
  match docx_paragraphs rd file_path with
  | Returned paragraphs => Returned (strip (add_lines [] paragraphs))
  | Raised e => Raised e
  end.

Definition _extract_from_txt (rd : readers) (file_path : str)
  : outcome str :=
  match txt_read rd file_path with
  | Returned content => Returned (strip content)
  | Raised e => Raised e
  end.

Definition extract_text (rd : readers) (file_path : str) : outcome str :=
  let file_extension := lower (PyPath.suffix file_path) in
  if str_eqb file_extension (lit ".pdf") then
    _extract_from_pdf rd file_path
  else if existsb (str_eqb file_extension) [lit ".docx"; lit ".doc"] then
    _extract_from_docx rd file_path
  else if str_eqb file_extension (lit ".txt") then
    _extract_from_txt rd file_path
  else
    Raised (Exception (lit "Unsupported file format: " ++ file_extension)).

End DocumentProcessor.

(* ================================================================== *)
(** * auth.py *)
(* ================================================================== *)

Module Auth.

(** A row of the [users] table. *)
Record User := {
  id : Z;
  email : str;
  hashed_password : str;
  full_name : option str;
  is_active : bool
}.

(** The password hashing context: what [pwd_context.verify] and
    [pwd_context.hash] return or raise. *)
Record CryptContext := {
  verify : str -> str -> outcome bool;
  hash : str -> outcome str
}.

(** What a function of the API yields: a value, an [HTTPException]
    that reaches the client, or another exception. *)
Inductive result (A : Type) : Type :=
| Reply (a : A)
| Abort (status_code : Z) (detail : str)
| Crash (e : exn).
Arguments Reply {A} a.
Arguments Abort {A} status_code detail.
Arguments Crash {A} e.

(** [hashed_password.startswith(('$2a$', '$2b$', '$2y$'))] *)
Definition is_bcrypt_hash (hashed_password : str) : bool :=
  existsb (startswith hashed_password) [lit "$2a$"; lit "$2b$"; lit "$2y$"].

Definition verify_password (pwd_context : CryptContext)
           (plain_password hashed_password : str) : outcome bool :=
  if is_bcrypt_hash hashed_password then Returned false
  else
    match verify pwd_context plain_password hashed_password with
    | Returned b => Returned b
    | Raised _ => Returned false
    end.

Definition get_password_hash (pwd_context : CryptContext) (password : str)
  : outcome str :=
  hash pwd_context password.

(** [user.hashed_password = new_hash] *)
Definition set_hashed_password (user : User) (new_hash : str) : User :=
  {| id := id user; email := email user; hashed_password := new_hash;
     full_name := full_name user; is_active := is_active user |}.

(** The result, the user object afterwards and the users committed:
    [db_commit] is what [db.commit()] returns or raises. *)
Definition migrate_password_if_needed (pwd_context : CryptContext)
           (db_commit : User -> outcome unit)
           (plain_password hashed_password : str) (user : User)
  : outcome bool * User * list User :=
  if is_bcrypt_hash hashed_password then
    match verify_password pwd_context plain_password hashed_password with
    | Returned true =>
        match get_password_hash pwd_context plain_password with
        | Returned new_hash =>
            let user' := set_hashed_password user new_hash in
            match db_commit user' with
            | Returned _ => (Returned true, user', [user'])
            | Raised e => (Raised e, user', [])
            end
        | Raised e => (Raised e, user, [])
        end
    | Returned false => (Returned false, user, [])
    | Raised e => (Raised e, user, [])
    end
  else (Returned false, user, []).

(** The body returned by [signup] and [login]. *)
Record TokenResponse := {
  access_token : str;
  token_type : str;
  user_id : Z;
  user_email : str;
  user_full_name : option str
}.

(** [login]: [find_user] is the query of the user with an email, and
    [create_access_token] the token issued for a subject, or the
    exception raised. *)
Definition login (pwd_context : CryptContext)
           (find_user : str -> outcome (option User))
           (create_access_token : str -> outcome str)
           (request_email request_password : str) : result TokenResponse :=
  let refuse := Abort 401 (lit "Incorrect email or password") in
  match find_user request_email with
  | Raised e => Crash e
  | Returned None => refuse
  | Returned (Some user) =>
      match verify_password pwd_context request_password
                            (hashed_password user) with
      | Raised e => Crash e
      | Returned false => refuse
      | Returned true =>
          match create_access_token (email user) with
          | Raised e => Crash e
          | Returned token =>
              Reply {| access_token := token;
                       token_type := lit "bearer";
                       user_id := id user;
                       user_email := email user;
                       user_full_name := full_name user |}
          end
      end
  end.

End Auth.

(* ================================================================== *)
(** * main.py: the other analysis endpoints *)
(* ================================================================== *)

Module Endpoints.

Import Main.

(** [demo_analyze_text]: the analysis of a text without storage. *)
Definition demo_analyze_text (summary_engine : SummaryEngine.t)
           (rewrite_engine : RewriteEngine.t) (text : str)
  : io http_result :=
  try_except
    (let risks := RiskAnalyzer.analyze text in
     summary <- SummaryEngine.generate_summary summary_engine text ;;
     merged <- rewrite_step rewrite_engine risks ;;
     let '(rewrites, risks) := merged in
     ret (Ok {| analysis_id := 0;
                document_name := lit "Text Input";
                text_length := len text;
                risks_found := len risks;
                risks := risks;
                original_text := text |}))
    (fun e => ret (HTTPException 500 (message e))).

Definition allowed_types : list str := [lit ".pdf"; lit ".docx"; lit ".txt"].

(** [sep.join(items)] *)
Fixpoint join (sep : str) (items : list str) : str :=
  match items with
  | [] => []
  | [item] => item
  | item :: rest => item ++ sep ++ join sep rest
  end.

Section Upload.

(** [str(e)] for the [HTTPException] with a status code and a detail
    (it depends on the version of the framework). *)
Variable http_str : Z -> str -> str.

(** Raising [HTTPException(status_code, detail)] inside a [try] whose
    handler reads [str(e)]. *)
Definition raise_http {A} (status_code : Z) (detail : str) : io A :=
  raise (Exception (http_str status_code detail)).

(** The checks made on an uploaded file before it is processed. *)
Definition check_upload (filename : str) (content : list N) : io unit :=
  match filename with
  | [] => raise_http 400 (lit "No file provided")
  | _ :: _ =>
      if Z.ltb (10 * 1024 * 1024) (len content) then
        raise_http 413 (lit "File too large. Maximum size is 10MB")
      else
        let file_ext := lower (PyPath.suffix filename) in
        if negb (existsb (str_eqb file_ext) allowed_types) then
          raise_http 422 (lit "Unsupported file type. Allowed types: "
                          ++ join (lit ", ") allowed_types)
        else ret tt
  end.

(** What follows the checks, up to the returned record: the file is
    written, its text extracted and analysed, the analysis stored. *)
Variable process : str -> list N -> io response.

(** The removal of the written file by the handler. *)
Variable cleanup : str -> io unit.

(** [analyze_document] and [demo_analyze_document]: the checks are made
    inside the [try], before [file_path] is set. *)
Definition analyze_document (filename : str) (content : list N)
  : io http_result :=
  fun log =>
    match check_upload filename content log with
    | (Raised e, log') => (Returned (HTTPException 500 (message e)), log')
    | (Returned _, log') =>
        match process filename content log' with
        | (Returned r, log'') => (Returned (Ok r), log'')
        | (Raised e, log'') =>
            (_ <- cleanup filename ;;
             ret (HTTPException 500 (message e))) log''
        end
    end.

End Upload.

End Endpoints.

(* ================================================================== *)
(** * Catalog lookup *)
(* ================================================================== *)

Module Catalog.

Import RiskAnalyzer.

(** The severity and the explanation that the catalog gives to a
    category name. *)
Definition lookup (risk_type : str)
  : option (severity_level * str) :=
  match find (fun p => str_eqb (Pattern.name p) risk_type) RISK_PATTERNS with
  | Some p => Some (Pattern.severity p, Pattern.explanation p)
  | None => None
  end.

Definition blank (text : str) : Prop :=
  Forall (fun c => isspace c = true) text.

Definition has_rewrite (r : Risk.t) : bool :=
  match Risk.suggested_rewrite r with
  | Some w => nonempty w
  | None => false
  end.

End Catalog.

Import Catalog.

(* ================================================================== *)
(** * The reply format that the prompt asks for *)
(* ================================================================== *)

Module Reply.

(** The word that opens a marker. *)
Definition marker_word : str := lit "REWRITE ".

(** [REWRITE i: w], one line per rewrite, numbered from [i]. *)
Fixpoint reply_lines (i : nat) (rewrites : list str) : str :=
  match rewrites with
  | [] => []
  | w :: rest =>
      marker_word ++ str_of_nat i ++ lit ":" ++ lit " " ++ w ++ nl
      ++ reply_lines (S i) rest
  end.

(** A rewrite that the format carries unchanged: not empty, without
    whitespace at its ends, and without the marker word. *)
Definition carried (w : str) : Prop :=
  nonempty w = true /\ trimmed w /\ contains w marker_word = false.

End Reply.

Import Reply.

(* ================================================================== *)
(** * Sample inputs *)
(* ================================================================== *)

Module Samples.

Import RiskAnalyzer.

Definition arbitration_text : str :=
  lit "This agreement provides for binding arbitration and the parties waive any right to a jury trial.".

(** The same sentence with [rights] in the plural. *)
Definition arbitration_rights_text : str :=
  lit "This agreement provides for binding arbitration and the parties waive any rights to a jury trial.".

(** One sentence matched by two categories. *)
Definition two_types_text : str :=
  lit "You waive all rights and may assign rights.".

(** U+0130 followed by [ as is]. *)
Definition dotted_text : str := [304%N] ++ lit " as is".


(** A reply whose first segment is blank. *)
Definition empty_segment_blob : str := lit "REWRITE 1:   REWRITE 2: x".

(** 113 times U+0130, then two sentences. *)
Definition long_dotted_text : str :=
  repeat 304%N 113 ++ lit "waive. rights".

Definition short_text : str := lit "Short text".

Definition unconfigured_summary : SummaryEngine.t :=
  {| SummaryEngine.model := None |}.

Definition unconfigured_rewrite : RewriteEngine.t :=
  {| RewriteEngine.model := None |}.

(** A service that always answers, and one that always raises. *)
Definition steady_model : GenerativeModel :=
  fun _ => Returned (lit "REWRITE 1: A balanced clause.").

Definition failing_model : GenerativeModel :=
  fun _ => Raised (Exception (lit "quota exceeded")).

Definition configured_summary : SummaryEngine.t :=
  {| SummaryEngine.model := Some steady_model |}.

Definition failing_rewrite : RewriteEngine.t :=
  {| RewriteEngine.model := Some failing_model |}.

Definition always_stored
  : str -> str -> list Risk.t -> option (list str) -> outcome Z :=
  fun _ _ _ _ => Returned 1%Z.

(** Spaces, a tab and a newline. *)
Definition blank_text : str := [32%N; 32%N; 9%N; 10%N; 32%N].

(** 8000 times [a], then different endings. *)
Definition long_text_a : str := repeat 97%N (Z.to_nat 8000) ++ lit "x".

Definition long_text_b : str := repeat 97%N (Z.to_nat 8000) ++ lit "yz".

Definition steady_rewrite : RewriteEngine.t :=
  {| RewriteEngine.model := Some steady_model |}.

(** A user stored with a hash in bcrypt format. *)
Definition legacy_user : Auth.User :=
  {| Auth.id := 7;
     Auth.email := lit "legacy@example.com";
     Auth.hashed_password := lit "$2b$12$abcdefghijklmnopqrstuv";
     Auth.full_name := None;
     Auth.is_active := true |}.

Definition find_legacy_user : str -> outcome (option Auth.User) :=
  fun email =>
    Returned (if str_eqb email (Auth.email legacy_user)
              then Some legacy_user else None).

(** A hashing context that accepts every password. *)
Definition accepting_context : Auth.CryptContext :=
  {| Auth.verify := fun _ _ => Returned true;
     Auth.hash := fun password => Returned (lit "$argon2id$" ++ password) |}.

Definition any_token : str -> outcome str :=
  fun subject => Returned (lit "token-for-" ++ subject).

(** [str(e)] as the status code, a colon and the detail. *)
Definition plain_http_str : Z -> str -> str :=
  fun status_code detail =>
    str_of_nat (Z.to_nat status_code) ++ lit ": " ++ detail.

Definition no_process : str -> list N -> io Main.response :=
  fun _ _ => raise (Exception (lit "not reached")).

Definition no_cleanup : str -> io unit := fun _ => ret tt.

(** The readers for a Word document of two paragraphs. *)
Definition two_paragraphs : DocumentProcessor.readers :=
  {| DocumentProcessor.pdf_pages :=
       fun _ => Raised (Exception (lit "not a PDF file"));
     DocumentProcessor.docx_paragraphs :=
       fun _ => Returned [lit "First paragraph."; lit "Second paragraph."];
     DocumentProcessor.txt_read :=
       fun _ => Raised (Exception (lit "not a text file")) |}.


Definition reply_preamble : str :=
  lit "Here are the rewrites you asked for." ++ nl.

Definition two_rewrites : list str :=
  [lit "Each party may end the contract with 30 days of notice.";
   lit "Fees paid in advance are refundable."].

End Samples.

Unset Implicit Arguments.

(* ================================================================== *)
(** * Strings and lists *)
(* ================================================================== *)

Section StrFacts.

(** The lowercase table is well formed: every run is a range with a
    positive stride, the runs are disjoint and listed in increasing
    order, and together they map 1433 code points. *)
Lemma lowercase_runs_increasing :
  Sorted (fun r r' => (run_last r < run_first r')%N) lowercase_runs
  /\ forallb (fun r => N.leb (run_first r) (run_last r)
                       && N.ltb 0 (run_stride r)) lowercase_runs = true.
Proof. split; [repeat constructor | vm_compute; reflexivity]. Qed.

Lemma lowercase_runs_count :
  fold_right (fun r n =>
                (n + ((run_last r - run_first r) / run_stride r + 1))%N)
             0%N lowercase_runs
  = 1433%N.
Proof. vm_compute. reflexivity. Qed.

(** The decimal digits are 66 runs of ten code points. *)
Lemma decimal_zeros_count : length decimal_zeros = 66.
Proof. reflexivity. Qed.

Lemma char_eqb_eq (a b : char) : char_eqb a b = true <-> a = b.
Proof. apply N.eqb_eq. Qed.

Lemma str_eqb_eq (a b : str) : str_eqb a b = true <-> a = b.
Proof.
revert b. induction a as [|x a IH]; intros [|y b]; simpl; split;
  try congruence; try reflexivity.
- rewrite andb_true_iff, char_eqb_eq, IH. intros [-> ->]. reflexivity.
- intros E. injection E as -> ->.
  rewrite andb_true_iff, char_eqb_eq, IH. split; reflexivity.
Qed.

Lemma str_eqb_refl (a : str) : str_eqb a a = true.
Proof. apply str_eqb_eq. reflexivity. Qed.

Lemma lstrip_head (s : str) :
match lstrip s with
| [] => True
| c :: _ => isspace c = false
end.
Proof.
induction s as [|c s IH]; simpl; [exact I|].
destruct (isspace c) eqn:E; [exact IH | exact E].
Qed.

Lemma lstrip_suffix (s : str) : exists p, s = p ++ lstrip s.
Proof.
induction s as [|c s [p IH]]; simpl.
- exists []. reflexivity.
- destruct (isspace c).
  + exists (c :: p). simpl. f_equal. exact IH.
  + exists []. reflexivity.
Qed.

End StrFacts.

(* ================================================================== *)
(** * The stable sort *)
(* ================================================================== *)

Section SortFacts.

Variable A : Type.
Variable key : A -> Z.

Let le_key (a b : A) : Prop := (key a <= key b)%Z.

Lemma insert_perm (x : A) (l : list A) :
  Permutation (PyList.insert key x l) (x :: l).
Proof.
  induction l as [|y l IH]; simpl; [reflexivity|].
  destruct (Z.leb (key x) (key y)); [reflexivity|].
  rewrite IH. apply perm_swap.
Qed.

Lemma sort_perm (l : list A) : Permutation (PyList.sort key l) l.
Proof.
  induction l as [|x l IH]; simpl; [reflexivity|].
  rewrite insert_perm. constructor. exact IH.
Qed.

Lemma insert_sorted (x : A) (l : list A) :
  StronglySorted le_key l -> StronglySorted le_key (PyList.insert key x l).
Proof.
  induction 1 as [|y l Hl IH Hy]; simpl.
  - repeat constructor.
  - destruct (Z.leb (key x) (key y)) eqn:E.
    + apply Z.leb_le in E. constructor.
      * constructor; assumption.
      * constructor; [exact E|].
        eapply Forall_impl; [|exact Hy].
        intros z Hz. unfold le_key in *. lia.
    + apply Z.leb_gt in E. constructor; [exact IH|].
      eapply Permutation_Forall; [symmetry; apply insert_perm|].
      constructor; [unfold le_key; lia | exact Hy].
Qed.

Lemma sort_sorted (l : list A) : StronglySorted le_key (PyList.sort key l).
Proof.
  induction l as [|x l IH]; simpl; [constructor|].
  apply insert_sorted. exact IH.
Qed.

(** Elements of one key keep their relative order. *)
Lemma insert_stable (k : Z) (x : A) (l : list A) :
  filter (fun y => Z.eqb (key y) k) (PyList.insert key x l)
  = filter (fun y => Z.eqb (key y) k) (x :: l).
Proof.
  induction l as [|y l IH]; [reflexivity|].
  cbn [PyList.insert].
  destruct (Z.leb (key x) (key y)) eqn:E; [reflexivity|].
  apply Z.leb_gt in E.
  cbn [filter] in *. rewrite IH.
  destruct (Z.eqb (key x) k) eqn:Ex; destruct (Z.eqb (key y) k) eqn:Ey;
    try reflexivity.
  apply Z.eqb_eq in Ex, Ey. lia.
Qed.

Lemma sort_stable (k : Z) (l : list A) :
  filter (fun y => Z.eqb (key y) k) (PyList.sort key l)
  = filter (fun y => Z.eqb (key y) k) l.
Proof.
  induction l as [|x l IH]; [reflexivity|].
  cbn [PyList.sort]. rewrite insert_stable.
  cbn [filter]. rewrite IH. reflexivity.
Qed.

End SortFacts.

(* ================================================================== *)
(** * Deduplication by fingerprint *)
(* ================================================================== *)

Section DedupFacts.

Import RiskAnalyzer.

Lemma seen_id_In (seen : list str) (i : str) :
  seen_id seen i = true <-> In i seen.
Proof.
  unfold seen_id. rewrite existsb_exists. split.
  - intros [j [Hj E]]. apply str_eqb_eq in E. subst. exact Hj.
  - intros H. exists i. split; [exact H | apply str_eqb_refl].
Qed.

Lemma seen_id_map (risks : list Risk.t) (i : str) :
  existsb (fun r => str_eqb (Risk.id r) i) risks
  = seen_id (map Risk.id risks) i.
Proof.
  unfold seen_id. induction risks as [|r risks IH]; simpl; [reflexivity|].
  rewrite IH. reflexivity.
Qed.

Lemma append_new_seen (risks : list Risk.t) (risk : Risk.t) :
  In (Risk.id risk) (map Risk.id risks) -> append_new risks risk = risks.
Proof.
  intros H. unfold append_new. rewrite seen_id_map.
  apply seen_id_In in H. rewrite H. reflexivity.
Qed.

Lemma append_new_fresh (risks : list Risk.t) (risk : Risk.t) :
  ~ In (Risk.id risk) (map Risk.id risks) ->
  append_new risks risk = risks ++ [risk].
Proof.
  intros H. unfold append_new. rewrite seen_id_map.
  destruct (seen_id (map Risk.id risks) (Risk.id risk)) eqn:E;
    [|reflexivity].
  apply seen_id_In in E. contradiction.
Qed.

(** The loop that appends unseen risks computes [first_by_id]. *)
Lemma fold_append_new (cs risks : list Risk.t) :
  fold_left append_new cs risks
  = risks ++ first_by_id (map Risk.id risks) cs.
Proof.
  revert risks. induction cs as [|c cs IH]; intros risks; simpl.
  - rewrite app_nil_r. reflexivity.
  - rewrite IH. unfold append_new. rewrite seen_id_map.
    destruct (seen_id (map Risk.id risks) (Risk.id c)); [reflexivity|].
    rewrite map_app. simpl. rewrite <- app_assoc. reflexivity.
Qed.

Lemma fold_scan_patterns (text : str) (ps : list Pattern.t)
      (risks : list Risk.t) :
  fold_left
    (scan_pattern text (lower text) (Re.split sentence_re text)) ps risks
  = fold_left append_new (candidates ps text) risks.
Proof.
  revert risks. induction ps as [|p ps IH]; intros risks; [reflexivity|].
  cbn [fold_left]. rewrite IH. unfold candidates. cbn [flat_map].
  rewrite fold_left_app. f_equal.
  unfold scan_pattern.
  generalize (Re.finditer (Pattern.pattern p) (lower text) true).
  intros ms. revert risks.
  induction ms as [|m ms IHm]; intros risks; [reflexivity|].
  simpl. apply IHm.
Qed.

Lemma detect_first_by_id (ps : list Pattern.t) (text : str) :
  detect ps text = first_by_id [] (candidates ps text).
Proof.
  unfold detect. rewrite fold_scan_patterns, fold_append_new.
  reflexivity.
Qed.

Lemma first_by_id_In (seen : list str) (cs : list Risk.t) (r : Risk.t) :
  In r (first_by_id seen cs) -> In r cs /\ ~ In (Risk.id r) seen.
Proof.
  revert seen. induction cs as [|c cs IH]; intros seen; simpl; [tauto|].
  destruct (seen_id seen (Risk.id c)) eqn:E.
  - intros H. apply IH in H. tauto.
  - intros [<- | H].
    + split; [left; reflexivity|]. intros H. apply seen_id_In in H.
      congruence.
    + apply IH in H. destruct H as [H1 H2]. split; [right; exact H1|].
      intros H. apply H2. apply in_or_app. left. exact H.
Qed.

Lemma first_by_id_NoDup (seen : list str) (cs : list Risk.t) :
  NoDup (map Risk.id (first_by_id seen cs)).
Proof.
  revert seen. induction cs as [|c cs IH]; intros seen; simpl;
    [constructor|].
  destruct (seen_id seen (Risk.id c)); [apply IH|].
  simpl. constructor; [|apply IH].
  intros H. apply in_map_iff in H. destruct H as [r [E H]].
  apply first_by_id_In in H. destruct H as [_ H]. apply H.
  apply in_or_app. right. left. symmetry. exact E.
Qed.

(** Every candidate's fingerprint is that of a retained risk. *)
Lemma first_by_id_covers (seen : list str) (cs : list Risk.t) (c : Risk.t) :
  In c cs ->
  In (Risk.id c) seen \/ In (Risk.id c) (map Risk.id (first_by_id seen cs)).
Proof.
  revert seen. induction cs as [|c' cs IH]; intros seen; simpl; [tauto|].
  intros [-> | H].
  - destruct (seen_id seen (Risk.id c)) eqn:E.
    + left. apply seen_id_In. exact E.
    + right. left. reflexivity.
  - destruct (seen_id seen (Risk.id c')) eqn:E.
    + apply IH. exact H.
    + destruct (IH (seen ++ [Risk.id c']) H) as [H1 | H1].
      * apply in_app_or in H1. destruct H1 as [H1 | [H1 | []]].
        -- left. exact H1.
        -- right. left. exact H1.
      * right. right. exact H1.
Qed.

Lemma candidates_In (ps : list Pattern.t) (text : str) (r : Risk.t) :
  In r (candidates ps text) ->
  exists p m, In p ps
    /\ In m (Re.finditer (Pattern.pattern p) (lower text) true)
    /\ r = make_risk text (Re.split sentence_re text) p m.
Proof.
  unfold candidates. rewrite in_flat_map. intros [p [Hp H]].
  apply in_map_iff in H. destruct H as [m [E Hm]].
  exists p, m. auto.
Qed.

End DedupFacts.

(* ================================================================== *)
(** * Matches and digests *)
(* ================================================================== *)

Section ScanFacts.

Import Re.

(** Matches are reported from left to right. *)
Lemma scan_starts (ic : bool) (r : regex) (s : str) (pos skip : nat) :
  Forall (fun m => pos <= m_start m) (scan ic r s pos skip)
  /\ StronglySorted lt (map m_start (scan ic r s pos skip)).
Proof.
  revert pos skip. induction s as [|c s IH]; intros pos skip.
  - simpl. destruct skip; [|split; constructor].
    destruct (rmatch ic r [] Some); split; repeat constructor.
  - cbn [scan]. destruct skip as [|j].
    + destruct (rmatch ic r (c :: s) Some) as [rest|].
      * destruct (IH (S pos) (pred (length (c :: s) - length rest)))
          as [Hlow Hsorted].
        split.
        -- constructor; [simpl; lia|].
           eapply Forall_impl; [|exact Hlow]. simpl. intros; lia.
        -- cbn [map]. constructor; [exact Hsorted|].
           apply Forall_map. eapply Forall_impl; [|exact Hlow].
           simpl. intros; lia.
      * destruct (IH (S pos) 0) as [Hlow Hsorted]. split; [|exact Hsorted].
        eapply Forall_impl; [|exact Hlow]. simpl. intros; lia.
    + destruct (IH (S pos) j) as [Hlow Hsorted]. split; [|exact Hsorted].
      eapply Forall_impl; [|exact Hlow]. simpl. intros; lia.
Qed.

Lemma finditer_starts (r : regex) (s : str) (ic : bool) :
  StronglySorted lt (map m_start (finditer r s ic)).
Proof. apply scan_starts. Qed.


End ScanFacts.

Section DigestFacts.

Import Md5.

Lemma le_bytes_length (n : nat) (x : Z) : length (le_bytes n x) = n.
Proof.
  revert x. induction n as [|n IH]; intros x; simpl; [reflexivity|].
  rewrite IH. reflexivity.
Qed.

Lemma le_bytes_range (n : nat) (x : Z) :
  Forall (fun b => (0 <= b < 256)%Z) (le_bytes n x).
Proof.
  revert x. induction n as [|n IH]; intros x; simpl; constructor.
  - change 255%Z with (Z.ones 8). rewrite Z.land_ones by lia.
    apply Z.mod_pos_bound. reflexivity.
  - apply IH.
Qed.

Lemma digest_length (msg : list N) : length (digest msg) = 16.
Proof.
  unfold digest.
  destruct (blocks _ init _) as [[[a b] c] d].
  rewrite !length_app, !le_bytes_length. reflexivity.
Qed.

Lemma digest_range (msg : list N) :
  Forall (fun b => (0 <= b < 256)%Z) (digest msg).
Proof.
  unfold digest.
  destruct (blocks _ init _) as [[[a b] c] d].
  repeat (apply Forall_app; split); apply le_bytes_range.
Qed.

Lemma hex_byte_hex (b : Z) :
  (0 <= b < 256)%Z -> forallb is_hex (hex_byte b) = true.
Proof.
  intros H.
  assert (E : forallb (fun n => forallb is_hex (hex_byte (Z.of_nat n)))
                      (List.seq 0 256) = true) by (vm_compute; reflexivity).
  rewrite forallb_forall in E.
  specialize (E (Z.to_nat b)). rewrite Z2Nat.id in E by lia.
  apply E. apply in_seq. lia.
Qed.

Lemma hexdigest_length (msg : list N) : length (hexdigest msg) = 32.
Proof.
  unfold hexdigest. pose proof (digest_length msg) as H.
  assert (G : forall l, length (flat_map hex_byte l) = 2 * length l).
  { induction l as [|b l IH]; simpl; [reflexivity|]. rewrite IH. lia. }
  rewrite G, H. reflexivity.
Qed.

Lemma hexdigest_hex (msg : list N) : forallb is_hex (hexdigest msg) = true.
Proof.
  unfold hexdigest. pose proof (digest_range msg) as H.
  induction H as [|b l Hb Hl IH]; [reflexivity|].
  cbn [flat_map]. rewrite forallb_app, IH, hex_byte_hex by exact Hb.
  reflexivity.
Qed.

Lemma fingerprint_length (name context : str) :
  length (RiskAnalyzer.fingerprint name context) = 12.
Proof.
  unfold RiskAnalyzer.fingerprint. rewrite length_firstn, hexdigest_length.
  reflexivity.
Qed.

Lemma forallb_firstn (A : Type) (f : A -> bool) (n : nat) (l : list A) :
  forallb f l = true -> forallb f (firstn n l) = true.
Proof.
  revert n. induction l as [|x l IH]; intros [|n]; simpl; try reflexivity.
  rewrite !andb_true_iff. intros [-> H]. split; [reflexivity|].
  apply IH. exact H.
Qed.

Lemma fingerprint_hex (name context : str) :
  forallb is_hex (RiskAnalyzer.fingerprint name context) = true.
Proof. apply forallb_firstn. apply hexdigest_hex. Qed.

End DigestFacts.

(* ================================================================== *)
(** * Properties of [RiskAnalyzer.analyze] *)
(* ================================================================== *)

Lemma analyze_perm (text : str) :
  Permutation (RiskAnalyzer.analyze text)
              (first_by_id [] (candidates RiskAnalyzer.RISK_PATTERNS text)).
Proof.
  unfold RiskAnalyzer.analyze. rewrite sort_perm, detect_first_by_id.
  reflexivity.
Qed.

Lemma analyze_In_candidates (text : str) (r : Risk.t) :
  In r (RiskAnalyzer.analyze text) ->
  In r (candidates RiskAnalyzer.RISK_PATTERNS text).
Proof.
  intros H. eapply Permutation_in in H; [|apply analyze_perm].
  apply first_by_id_In in H. tauto.
Qed.

(** C1, as stated, fails: the sample sentence has [right] in the
    singular, which no alternative of the Waiver of Rights matcher
    accepts, so the result has no entry of that type. *)
Lemma C1_counterexample :
  ~ ((exists r, In r (RiskAnalyzer.analyze Samples.arbitration_text)
                /\ Risk.risk_type r = lit "Arbitration Clause"
                /\ Risk.severity r = medium)
     /\ (exists r, In r (RiskAnalyzer.analyze Samples.arbitration_text)
                   /\ Risk.risk_type r = lit "Waiver of Rights"
                   /\ Risk.severity r = high)).
Proof.
  intros [_ [r [Hin [Hty _]]]].
  apply (in_map Risk.risk_type) in Hin. rewrite Hty in Hin.
  assert (E : map Risk.risk_type
                  (RiskAnalyzer.analyze Samples.arbitration_text)
              = [lit "Arbitration Clause"]) by (vm_compute; reflexivity).
  rewrite E in Hin. destruct Hin as [H | []].
  vm_compute in H. discriminate H.
Qed.

(** C1, amended: for the sample sentence the result is exactly one
    risk, of type Arbitration Clause and severity medium, for the
    match [binding arbitration] at offsets 28 to 47; with [rights] in
    place of [right] the result has an Arbitration Clause entry of
    severity medium and a Waiver of Rights entry of severity high. *)
Theorem C1_arbitration_only :
  map (fun r => (Risk.risk_type r, Risk.severity r, Risk.original_text r,
                 Risk.start_position r, Risk.end_position r))
      (RiskAnalyzer.analyze Samples.arbitration_text)
  = [(lit "Arbitration Clause", medium, lit "binding arbitration",
      28%Z, 47%Z)]
  /\ map (fun r => (Risk.risk_type r, Risk.severity r))
         (RiskAnalyzer.analyze Samples.arbitration_rights_text)
     = [(lit "Waiver of Rights", high); (lit "Arbitration Clause", medium)].
Proof. split; vm_compute; reflexivity. Qed.

(** C6: the returned list is sorted by severity rank (high 0, medium 1,
    low 2) and is a rearrangement of the detected risks in which the
    risks of each severity keep their detection order; the detected
    risks are the candidates with a fresh fingerprint, in the order of
    the pattern table and, within a pattern, of increasing match
    position. *)
Theorem C6_sorted_stable (text : str) :
  let risks := RiskAnalyzer.analyze text in
  let detected := RiskAnalyzer.detect RiskAnalyzer.RISK_PATTERNS text in
  (RiskAnalyzer.severity_order high = 0
   /\ RiskAnalyzer.severity_order medium = 1
   /\ RiskAnalyzer.severity_order low = 2)%Z
  /\ StronglySorted by_rank risks
  /\ Permutation risks detected
  /\ (forall s, filter (has_severity s) risks
                = filter (has_severity s) detected)
  /\ detected = first_by_id [] (candidates RiskAnalyzer.RISK_PATTERNS text)
  /\ Forall (fun p =>
               StronglySorted lt
                 (map Re.m_start
                      (Re.finditer (Pattern.pattern p) (lower text) true)))
            RiskAnalyzer.RISK_PATTERNS.
Proof.
  intros risks detected.
  split; [repeat split|]. split; [|split; [|split; [|split]]].
  - apply (sort_sorted _ (fun x => RiskAnalyzer.severity_order (Risk.severity x))).
  - apply sort_perm.
  - intros s. unfold risks, RiskAnalyzer.analyze. fold detected.
    pose proof (sort_stable _
                  (fun x => RiskAnalyzer.severity_order (Risk.severity x))
                  (RiskAnalyzer.severity_order s) detected) as H.
    assert (E : forall l,
               filter (has_severity s) l
               = filter (fun y => Z.eqb (RiskAnalyzer.severity_order
                                           (Risk.severity y))
                                        (RiskAnalyzer.severity_order s)) l).
    { intros l. apply filter_ext. intros r. unfold has_severity.
      destruct (Risk.severity r), s; reflexivity. }
    rewrite !E. exact H.
  - apply detect_first_by_id.
  - apply Forall_forall. intros p _. apply finditer_starts.
Qed.

(* ================================================================== *)
(** * Properties of [RewriteEngine._parse_rewrites] *)
(* ================================================================== *)

Section ParseFacts.

Import RewriteEngine.

Lemma fold_keep_part (parts rewrites : list str) :
  fold_left keep_part parts rewrites
  = rewrites ++ filter nonempty (map strip parts).
Proof.
  revert rewrites. induction parts as [|part parts IH]; intros rewrites.
  - simpl. rewrite app_nil_r. reflexivity.
  - cbn [fold_left map filter]. rewrite IH. unfold keep_part.
    destruct (strip part); simpl; [reflexivity|].
    rewrite <- app_assoc. reflexivity.
Qed.

(** The fuel given to the padding loop is enough: it stops because
    its condition fails. *)
Lemma pad_loop_repeat (fuel : nat) (rewrites : list str) (n : Z) :
  Z.to_nat n - length rewrites <= fuel ->
  pad_loop fuel rewrites n
  = rewrites ++ repeat placeholder (Z.to_nat n - length rewrites).
Proof.
  revert rewrites. induction fuel as [|fuel IH]; intros rewrites H.
  - simpl. replace (Z.to_nat n - length rewrites) with 0 by lia.
    simpl. rewrite app_nil_r. reflexivity.
  - cbn [pad_loop]. unfold len.
    destruct (Z.ltb (Z.of_nat (length rewrites)) n) eqn:E.
    + apply Z.ltb_lt in E. rewrite IH.
      * rewrite length_app. simpl.
        replace (Z.to_nat n - length rewrites)
          with (S (Z.to_nat n - (length rewrites + 1))) by lia.
        simpl. rewrite <- app_assoc. reflexivity.
      * rewrite length_app. simpl. lia.
    + apply Z.ltb_ge in E.
      replace (Z.to_nat n - length rewrites) with 0 by lia.
      simpl. rewrite app_nil_r. reflexivity.
Qed.

Lemma fallback_recovered (blob : str) :
  match segments blob, strip blob with
  | [], _ :: _ => segments blob ++ [strip blob]
  | _, _ => segments blob
  end = recovered blob.
Proof. unfold recovered. destruct (segments blob); reflexivity. Qed.

Lemma parse_rewrites_recovered (blob : str) (n : Z) :
  (0 <= n)%Z ->
  _parse_rewrites blob n
  = firstn (Z.to_nat n)
           (recovered blob
            ++ repeat placeholder (Z.to_nat n - length (recovered blob))).
Proof.
  intros Hn. unfold _parse_rewrites, take.
  destruct (Z.ltb n 0) eqn:E; [apply Z.ltb_lt in E; lia|].
  rewrite fold_keep_part. cbn [app]. fold (segments blob).
  rewrite fallback_recovered.
  rewrite pad_loop_repeat by lia. reflexivity.
Qed.


Lemma keep_part_nonempty (rewrites : list str) (part : str) :
  forallb nonempty rewrites = true ->
  forallb nonempty (keep_part rewrites part) = true.
Proof.
  intros H. unfold keep_part. destruct (strip part); [exact H|].
  rewrite forallb_app, H. reflexivity.
Qed.

Lemma pad_loop_nonempty (fuel : nat) (rewrites : list str) (n : Z) :
  forallb nonempty rewrites = true ->
  forallb nonempty (pad_loop fuel rewrites n) = true.
Proof.
  revert rewrites. induction fuel as [|fuel IH]; intros rewrites H;
    [exact H|].
  cbn [pad_loop]. destruct (Z.ltb (len rewrites) n); [|exact H].
  apply IH. rewrite forallb_app, H. reflexivity.
Qed.

Lemma parse_rewrites_nonempty (blob : str) (n : Z) :
  forallb nonempty (_parse_rewrites blob n) = true.
Proof.
  unfold _parse_rewrites.
  set (kept := fold_left keep_part (tl (Re.split marker_re blob)) []).
  assert (Hkept : forallb nonempty kept = true).
  { unfold kept. generalize (tl (Re.split marker_re blob)).
    intros parts.
    assert (G : forall acc, forallb nonempty acc = true ->
                  forallb nonempty (fold_left keep_part parts acc) = true).
    { induction parts as [|part parts IH]; intros acc Hacc; [exact Hacc|].
      simpl. apply IH. apply keep_part_nonempty. exact Hacc. }
    apply G. reflexivity. }
  assert (Hfall : forallb nonempty
                    match kept, strip blob with
                    | [], _ :: _ => kept ++ [strip blob]
                    | _, _ => kept
                    end = true).
  { destruct kept; [|exact Hkept].
    destruct (strip blob); reflexivity. }
  unfold take.
  destruct (Z.ltb n 0); apply forallb_firstn, pad_loop_nonempty, Hfall.
Qed.

End ParseFacts.

(* ================================================================== *)
(** * Properties of the engines and of the orchestrator *)
(* ================================================================== *)

Section EngineFacts.

Lemma generate_summary_returns (self : SummaryEngine.t) (text : str)
      (log : calls) :
  exists summary log',
    SummaryEngine.generate_summary self text log = (Returned summary, log').
Proof.
  unfold SummaryEngine.generate_summary.
  destruct (SummaryEngine.model self) as [m|]; [|eexists _, _; reflexivity].
  destruct (_ || _); [eexists _, _; reflexivity|].
  unfold try_except, bind, generate_content, ret.
  destruct (m _); eexists _, _; reflexivity.
Qed.

(** The outcome of [rewrite_clauses] on a non-empty batch. *)
Lemma rewrite_clauses_batch (self : RewriteEngine.t) (clause : str)
      (clauses : list str) (log : calls) :
  RewriteEngine.rewrite_clauses self (clause :: clauses) log
  = match RewriteEngine.model self with
    | None => (Returned None, log)
    | Some m =>
        let prompt := RewriteEngine._build_rewrite_prompt (clause :: clauses) in
        match m prompt with
        | Returned rewritten_text =>
            (Returned
               (Some (RewriteEngine._parse_rewrites
                        rewritten_text (len (clause :: clauses)))),
             log ++ [prompt])
        | Raised _ => (Returned None, log ++ [prompt])
        end
    end.
Proof.
  unfold RewriteEngine.rewrite_clauses.
  destruct (RewriteEngine.model self) as [m|]; [|reflexivity].
  unfold try_except, bind, generate_content, ret. cbn zeta.
  destruct (m _); reflexivity.
Qed.

Lemma rewrite_clauses_returns (self : RewriteEngine.t) (clauses : list str)
      (log : calls) :
  exists rewrites log',
    RewriteEngine.rewrite_clauses self clauses log
    = (Returned rewrites, log')
    /\ (rewrites = None
        \/ (rewrites = Some [] /\ clauses = [])
        \/ exists rewritten_text,
             rewrites = Some (RewriteEngine._parse_rewrites
                                rewritten_text (len clauses))).
Proof.
  destruct clauses as [|clause clauses].
  - unfold RewriteEngine.rewrite_clauses, ret.
    destruct (RewriteEngine.model self); eexists _, _; split;
      try reflexivity; auto.
  - rewrite rewrite_clauses_batch.
    destruct (RewriteEngine.model self) as [m|];
      [|eexists _, _; split; [reflexivity | auto]].
    cbn zeta. destruct (m _); eexists _, _; split; try reflexivity; eauto.
Qed.

(** The rewrite step never raises; the risks are merged with the
    rewrites when there are some, and left as they are otherwise. *)
Lemma rewrite_step_cases (rewrite_engine : RewriteEngine.t)
      (risks : list Risk.t) (log : calls) :
  exists rewrites log',
    Main.rewrite_step rewrite_engine risks log
    = (Returned (rewrites,
                 match rewrites with
                 | Some (w :: ws) => Main.attach (w :: ws) risks
                 | _ => risks
                 end), log')
    /\ (rewrites = None
        \/ exists rewritten_text,
             rewrites = Some (RewriteEngine._parse_rewrites
                                rewritten_text
                                (len (map Risk.clause risks)))).
Proof.
  destruct risks as [|risk risks].
  - exists None, log. split; [reflexivity | auto].
  - unfold Main.rewrite_step, try_except, bind.
    cbn [map]. rewrite rewrite_clauses_batch.
    destruct (RewriteEngine.model rewrite_engine) as [m|].
    + cbn zeta. destruct (m _) as [rewritten_text|e].
      * exists (Some (RewriteEngine._parse_rewrites
                        rewritten_text
                        (len (map Risk.clause (risk :: risks))))).
        eexists. split; [|right; eexists; reflexivity].
        cbn [map].
        destruct (RewriteEngine._parse_rewrites rewritten_text _);
          reflexivity.
      * exists None. eexists. split; [reflexivity | auto].
    + exists None, log. split; [reflexivity | auto].
Qed.



Lemma attach_from_frame (i : nat) (rewrites : list str)
      (risks : list Risk.t) :
  map frame (Main.attach_from i rewrites risks) = map frame risks.
Proof.
  revert i. induction risks as [|risk risks IH]; intros i; [reflexivity|].
  cbn [Main.attach_from map]. rewrite IH. f_equal.
  destruct (Z.ltb _ _); reflexivity.
Qed.

Lemma attach_from_ok (i : nat) (rewrites : list str) (risks : list Risk.t) :
  forallb nonempty rewrites = true ->
  forallb rewrite_ok risks = true ->
  forallb rewrite_ok (Main.attach_from i rewrites risks) = true.
Proof.
  intros Hrw. revert i.
  induction risks as [|risk risks IH]; intros i H; [reflexivity|].
  cbn [Main.attach_from forallb] in *.
  apply andb_true_iff in H. destruct H as [H1 H2].
  rewrite IH by exact H2. rewrite andb_true_r. unfold len.
  destruct (Z.ltb (Z.of_nat i) (Z.of_nat (length rewrites))) eqn:E;
    [|exact H1].
  apply Z.ltb_lt in E. unfold rewrite_ok. cbn.
  rewrite forallb_forall in Hrw. apply Hrw. apply nth_In. lia.
Qed.

Lemma analyze_no_rewrite (text : str) :
  Forall (fun r => Risk.suggested_rewrite r = None)
         (RiskAnalyzer.analyze text).
Proof.
  apply Forall_forall. intros r Hr.
  apply analyze_In_candidates, candidates_In in Hr.
  destruct Hr as [p [m [_ [_ ->]]]]. reflexivity.
Qed.

Lemma rewrite_step_ok (rewrite_engine : RewriteEngine.t)
      (risks : list Risk.t) (log : calls) :
  forallb rewrite_ok risks = true ->
  match fst (Main.rewrite_step rewrite_engine risks log) with
  | Returned (_, merged) => forallb rewrite_ok merged = true
  | Raised _ => False
  end.
Proof.
  intros H.
  destruct (rewrite_step_cases rewrite_engine risks log)
    as [rewrites [log' [E Hrw]]].
  rewrite E. cbn [fst].
  destruct Hrw as [-> | [rewritten_text ->]]; [exact H|].
  pose proof (parse_rewrites_nonempty rewritten_text
                (len (map Risk.clause risks))) as Hne.
  destruct (RewriteEngine._parse_rewrites _ _); [exact H|].
  apply attach_from_ok; assumption.
Qed.

(** The endpoint: the summary and the rewrite step never raise, and
    the answer is decided by the storage of the analysis. *)
Lemma analyze_text_cases (summary_engine : SummaryEngine.t)
      (rewrite_engine : RewriteEngine.t)
      (persist : str -> str -> list Risk.t -> option (list str) -> outcome Z)
      (text : str) (log : calls) :
  exists summary log1 rewrites merged log2,
    SummaryEngine.generate_summary summary_engine text log
    = (Returned summary, log1)
    /\ Main.rewrite_step rewrite_engine (RiskAnalyzer.analyze text) log1
       = (Returned (rewrites, merged), log2)
    /\ Main.analyze_text summary_engine rewrite_engine persist text log
       = (Returned
            match persist text summary merged rewrites with
            | Returned id =>
                Main.Ok {| Main.analysis_id := id;
                           Main.document_name := lit "Text Input";
                           Main.text_length := len text;
                           Main.risks_found := len merged;
                           Main.risks := merged;
                           Main.original_text := text |}
            | Raised e => Main.HTTPException 500 (message e)
            end, log2).
Proof.
  destruct (generate_summary_returns summary_engine text log)
    as [summary [log1 Es]].
  destruct (rewrite_step_cases rewrite_engine
              (RiskAnalyzer.analyze text) log1)
    as [rewrites [log2 [Er _]]].
  eexists summary, log1, rewrites, _, log2.
  split; [exact Es|]. split; [exact Er|].
  unfold Main.analyze_text, try_except, bind. rewrite Es, Er.
  destruct (persist _ _ _ _); reflexivity.
Qed.

End EngineFacts.

(* ================================================================== *)
(** * Claims on the engines and on the merge *)
(* ================================================================== *)

(** C4, as stated, fails: an engine without a model answers a short
    text with the advisory on the missing API key, not with the
    advisory on short documents. *)
Lemma C4_counterexample :
  (len (strip Samples.short_text) < 50)%Z
  /\ SummaryEngine.generate_summary
       Samples.unconfigured_summary Samples.short_text []
     = (Returned SummaryEngine.not_configured, [])
  /\ SummaryEngine.not_configured <> SummaryEngine.too_short.
Proof.
  split; [vm_compute; reflexivity|]. split; [reflexivity|].
  vm_compute. discriminate.
Qed.

(** C4, amended: for every text whose trimmed length is below 50 the
    service is not called; the result is the advisory on short
    documents when the engine has a model, and the advisory on the
    missing API key when it has none. *)
Theorem C4_short_text (self : SummaryEngine.t) (text : str) (log : calls) :
  (len (strip text) < 50)%Z ->
  SummaryEngine.generate_summary self text log
  = (Returned match SummaryEngine.model self with
              | Some _ => SummaryEngine.too_short
              | None => SummaryEngine.not_configured
              end, log).
Proof.
  intros H. unfold SummaryEngine.generate_summary.
  destruct (SummaryEngine.model self); [|reflexivity].
  apply Z.ltb_lt in H. rewrite H, orb_true_r. reflexivity.
Qed.

(** A text of ten characters given to an engine that has a model. *)
Lemma C4_short_text_witness :
  SummaryEngine.generate_summary
    Samples.configured_summary Samples.short_text []
  = (Returned SummaryEngine.too_short, []).
Proof.
  apply (C4_short_text Samples.configured_summary Samples.short_text []).
  vm_compute. reflexivity.
Defined.

(** C5, as stated, fails: an engine without a model answers the empty
    batch with [None], not with the empty list. *)
Lemma C5_counterexample :
  RewriteEngine.rewrite_clauses Samples.unconfigured_rewrite [] []
  = (Returned None, [])
  /\ (None : option (list str)) <> Some [].
Proof. split; [reflexivity | discriminate]. Qed.

(** C5, amended: on the empty batch the service is not called; the
    result is the empty list when the engine has a model, and [None]
    when it has none. *)
Theorem C5_empty_batch (self : RewriteEngine.t) (log : calls) :
  RewriteEngine.rewrite_clauses self [] log
  = (Returned match RewriteEngine.model self with
              | Some _ => Some []
              | None => None
              end, log).
Proof.
  unfold RewriteEngine.rewrite_clauses.
  destruct (RewriteEngine.model self); reflexivity.
Qed.

(** C7: [rewrite_clauses] always returns; without a model it returns
    [None] and calls nothing; when the service raises on the prompt of
    a non-empty batch it returns [None]. In both cases the rewrite
    step of the orchestrator leaves the detected risks as they are,
    none with a rewrite, and the endpoint answers with these risks
    once the analysis is stored. *)
Theorem C7_rewrite_never_raises
        (self : RewriteEngine.t) (clauses : list str) (log : calls)
        (summary_engine : SummaryEngine.t)
        (persist : str -> str -> list Risk.t -> option (list str) -> outcome Z)
        (text : str) :
  let prompt := RewriteEngine._build_rewrite_prompt clauses in
  let risks := RiskAnalyzer.analyze text in
  (exists rewrites log',
      RewriteEngine.rewrite_clauses self clauses log
      = (Returned rewrites, log'))
  /\ (RewriteEngine.model self = None ->
      RewriteEngine.rewrite_clauses self clauses log = (Returned None, log))
  /\ (forall m e,
         RewriteEngine.model self = Some m -> clauses <> [] ->
         m prompt = Raised e ->
         RewriteEngine.rewrite_clauses self clauses log
         = (Returned None, log ++ [prompt]))
  /\ (RewriteEngine.model self = None
      \/ (exists m e,
             RewriteEngine.model self = Some m
             /\ m (RewriteEngine._build_rewrite_prompt
                     (map Risk.clause risks)) = Raised e) ->
      exists summary log1 log2,
        SummaryEngine.generate_summary summary_engine text log
        = (Returned summary, log1)
        /\ Main.rewrite_step self risks log1 = (Returned (None, risks), log2)
        /\ Forall (fun r => Risk.suggested_rewrite r = None) risks
        /\ Main.analyze_text summary_engine self persist text log
           = (Returned
                match persist text summary risks None with
                | Returned id =>
                    Main.Ok {| Main.analysis_id := id;
                               Main.document_name := lit "Text Input";
                               Main.text_length := len text;
                               Main.risks_found := len risks;
                               Main.risks := risks;
                               Main.original_text := text |}
                | Raised e => Main.HTTPException 500 (message e)
                end, log2)).
Proof.
  intros prompt risks. split; [|split; [|split]].
  - destruct (rewrite_clauses_returns self clauses log)
      as [rewrites [log' [E _]]].
    exists rewrites, log'. exact E.
  - intros H. unfold RewriteEngine.rewrite_clauses. rewrite H. reflexivity.
  - intros m e Hm Hc He. destruct clauses as [|clause clauses];
      [contradiction|].
    rewrite rewrite_clauses_batch, Hm. cbn zeta. fold prompt.
    rewrite He. reflexivity.
  - intros H.
    destruct (analyze_text_cases summary_engine self persist text log)
      as (summary & log1 & rewrites & merged & log2 & Es & Er & Ea).
    fold risks in Er.
    assert (G : exists log2', Main.rewrite_step self risks log1
                              = (Returned (None, risks), log2')).
    { destruct risks as [|risk rest] eqn:Erisks;
        [eexists; reflexivity|].
      unfold Main.rewrite_step, try_except, bind. cbn [map].
      rewrite rewrite_clauses_batch.
      destruct H as [H | [m [e [Hm He]]]].
      - rewrite H. eexists; reflexivity.
      - rewrite Hm. cbn zeta. cbn [map] in He. rewrite He.
        eexists; reflexivity. }
    destruct G as [log2' G]. rewrite G in Er.
    injection Er as <- <- <-.
    exists summary, log1, log2'.
    split; [exact Es|]. split; [exact G|].
    split; [apply analyze_no_rewrite | exact Ea].
Qed.

(** An engine whose service raises on every prompt, and an engine
    without a model. *)
Lemma C7_rewrite_never_raises_witness :
  RewriteEngine.rewrite_clauses
    Samples.failing_rewrite [Samples.two_types_text] []
  = (Returned None,
     [RewriteEngine._build_rewrite_prompt [Samples.two_types_text]])
  /\ RewriteEngine.rewrite_clauses
       Samples.unconfigured_rewrite [Samples.two_types_text] []
     = (Returned None, [])
  /\ exists summary log1 log2,
       SummaryEngine.generate_summary
         Samples.unconfigured_summary Samples.arbitration_text []
       = (Returned summary, log1)
       /\ Main.rewrite_step Samples.failing_rewrite
            (RiskAnalyzer.analyze Samples.arbitration_text) log1
          = (Returned (None, RiskAnalyzer.analyze Samples.arbitration_text),
             log2)
       /\ Forall (fun r => Risk.suggested_rewrite r = None)
                 (RiskAnalyzer.analyze Samples.arbitration_text)
       /\ Main.analyze_text Samples.unconfigured_summary
            Samples.failing_rewrite Samples.always_stored
            Samples.arbitration_text []
          = (Returned
               (Main.Ok
                  {| Main.analysis_id := 1;
                     Main.document_name := lit "Text Input";
                     Main.text_length := len Samples.arbitration_text;
                     Main.risks_found :=
                       len (RiskAnalyzer.analyze Samples.arbitration_text);
                     Main.risks :=
                       RiskAnalyzer.analyze Samples.arbitration_text;
                     Main.original_text := Samples.arbitration_text |}),
             log2).
Proof.
  split; [|split].
  - destruct (C7_rewrite_never_raises
                Samples.failing_rewrite [Samples.two_types_text] []
                Samples.unconfigured_summary Samples.always_stored
                Samples.arbitration_text) as (_ & _ & H & _).
    apply (H Samples.failing_model (Exception (lit "quota exceeded")));
      [reflexivity | discriminate | reflexivity].
  - destruct (C7_rewrite_never_raises
                Samples.unconfigured_rewrite [Samples.two_types_text] []
                Samples.unconfigured_summary Samples.always_stored
                Samples.arbitration_text) as (_ & H & _).
    apply H. reflexivity.
  - destruct (C7_rewrite_never_raises
                Samples.failing_rewrite [Samples.two_types_text] []
                Samples.unconfigured_summary Samples.always_stored
                Samples.arbitration_text) as (_ & _ & _ & H).
    apply H. right.
    exists Samples.failing_model, (Exception (lit "quota exceeded")).
    split; reflexivity.
Defined.




(** C10: every string returned by the parser is non-empty, whatever
    the blob and the count: segments that are empty once trimmed are
    not kept, and the placeholder is not empty. Hence every risk in an
    answer of the endpoint has no rewrite or a non-empty one. *)
Theorem C10_rewrites_nonempty
        (blob : str) (N : Z)
        (summary_engine : SummaryEngine.t) (rewrite_engine : RewriteEngine.t)
        (persist : str -> str -> list Risk.t -> option (list str) -> outcome Z)
        (text : str) (log : calls) :
  forallb nonempty (RewriteEngine._parse_rewrites blob N) = true
  /\ Forall (fun part => nonempty part = true) (segments blob)
  /\ nonempty RewriteEngine.placeholder = true
  /\ RewriteEngine._parse_rewrites Samples.empty_segment_blob 2
     = [lit "x"; RewriteEngine.placeholder]
  /\ match fst (Main.analyze_text summary_engine rewrite_engine persist
                                  text log) with
     | Returned (Main.Ok answer) =>
         forallb rewrite_ok (Main.risks answer) = true
     | Returned (Main.HTTPException _ _) => True
     | Raised _ => False
     end.
Proof.
  split; [apply parse_rewrites_nonempty|].
  split; [apply Forall_forall; intros part H;
          apply filter_In in H; tauto|].
  split; [reflexivity|]. split; [vm_compute; reflexivity|].
  destruct (analyze_text_cases summary_engine rewrite_engine persist text log)
    as (summary & log1 & rewrites & merged & log2 & _ & Er & Ea).
  rewrite Ea. cbn [fst].
  destruct (persist text summary merged rewrites); [|exact I].
  cbn [Main.risks].
  pose proof (rewrite_step_ok rewrite_engine
                (RiskAnalyzer.analyze text) log1) as H.
  rewrite Er in H. apply H.
  apply forallb_forall. intros r Hr.
  pose proof (analyze_no_rewrite text) as Hnone.
  rewrite Forall_forall in Hnone. unfold rewrite_ok.
  rewrite (Hnone r Hr). reflexivity.
Qed.

(* ================================================================== *)
(** * Trimming *)
(* ================================================================== *)

Section StripFacts.

Lemma lstrip_keeps (s : str) (c : char) :
  In c s -> isspace c = false -> In c (lstrip s).
Proof.
  induction s as [|x s IH]; simpl; [tauto|].
  intros [-> | H] Hc.
  - rewrite Hc. left. reflexivity.
  - destruct (isspace x); [apply IH; assumption | right; exact H].
Qed.

Lemma strip_keeps (s : str) (c : char) :
  In c s -> isspace c = false -> In c (strip s).
Proof.
  intros H Hc. unfold strip, rstrip.
  apply in_rev. rewrite rev_involutive.
  apply lstrip_keeps; [|exact Hc].
  apply in_rev. rewrite rev_involutive.
  apply lstrip_keeps; assumption.
Qed.

Lemma strip_nonempty (s : str) (c : char) :
  In c s -> isspace c = false -> nonempty (strip s) = true.
Proof.
  intros H Hc. pose proof (strip_keeps s c H Hc) as G.
  destruct (strip s); [destruct G | reflexivity].
Qed.

Lemma strip_trimmed (s : str) : trimmed (strip s).
Proof.
  unfold trimmed, strip, rstrip. split.
  - pose proof (lstrip_head s) as Hhead.
    destruct (lstrip_suffix (rev (lstrip s))) as [p Hp].
    apply (f_equal (@rev char)) in Hp.
    rewrite rev_involutive, rev_app_distr in Hp.
    destruct (rev (lstrip (rev (lstrip s)))) as [|c t]; [exact I|].
    rewrite Hp in Hhead. exact Hhead.
  - rewrite rev_involutive. apply lstrip_head.
Qed.

End StripFacts.

(* ================================================================== *)
(** * Spans of the matches *)
(* ================================================================== *)

Section SpanFacts.

Import Re.

Lemma is_suffix_refl (s : str) : is_suffix s s.
Proof. exists []. reflexivity. Qed.

Lemma is_suffix_tail (c : char) (s : str) : is_suffix s (c :: s).
Proof. exists [c]. reflexivity. Qed.

Lemma is_suffix_trans (a b c : str) :
  is_suffix a b -> is_suffix b c -> is_suffix a c.
Proof.
  intros [p ->] [q ->]. exists (q ++ p). rewrite app_assoc. reflexivity.
Qed.

Ltac one_char :=
  let c := fresh "c" in
  let s := fresh "s" in
  intros [|c s] k x H; [discriminate H|];
  match type of H with
  | (if ?b then _ else _) = _ => destruct b; try discriminate H
  end;
  exists s; split; [apply is_suffix_tail | exact H].

(** What the continuation receives is what is left of the input. *)
Lemma rmatch_suffix (ic : bool) (r : regex) :
  forall (s : str) (k : str -> option str) (x : str),
    rmatch ic r s k = Some x ->
    exists rest, is_suffix rest s /\ k rest = Some x.
Proof.
  induction r as [| p | | | | cs | r1 IH1 r2 IH2 | r1 IH1 r2 IH2 | r1 IH1];
    cbn [rmatch].
  - intros s k x H. exists s. split; [apply is_suffix_refl | exact H].
  - one_char.
  - one_char.
  - one_char.
  - one_char.
  - one_char.
  - intros s k x H.
    apply IH1 in H. destruct H as [s1 [S1 H]].
    apply IH2 in H. destruct H as [s2 [S2 H]].
    exists s2. split; [|exact H]. eapply is_suffix_trans; eassumption.
  - intros s k x H. destruct (rmatch ic r1 s k) eqn:E.
    + apply IH1 in E. injection H as <-. exact E.
    + apply IH2 in H. exact H.
  - intros s k x. generalize (length s) at 1. intros n. revert s.
    induction n as [|n IHn]; intros s H.
    + exists s. split; [apply is_suffix_refl | exact H].
    + destruct (rmatch ic r1 s _) eqn:E.
      * injection H as <-. apply IH1 in E. destruct E as [s1 [S1 E]].
        destruct (Nat.ltb (length s1) (length s)); [|discriminate E].
        apply IHn in E. destruct E as [s2 [S2 E]].
        exists s2. split; [|exact E]. eapply is_suffix_trans; eassumption.
      * exists s. split; [apply is_suffix_refl | exact H].
Qed.

Lemma rmatch_rest (ic : bool) (r : regex) (s rest : str) :
  rmatch ic r s Some = Some rest -> is_suffix rest s.
Proof.
  intros H. apply rmatch_suffix in H. destruct H as [s' [S E]].
  injection E as <-. exact S.
Qed.

(** Whitespace is not changed by the lowercase mappings, and is not
    accepted by a letter of a pattern. *)
Lemma isspace_cases (c : char) :
  isspace c = true ->
  ((9 <= c <= 13) \/ (28 <= c <= 32) \/ c = 133 \/ c = 160 \/ c = 5760
   \/ (8192 <= c <= 8202) \/ c = 8232 \/ c = 8233 \/ c = 8239
   \/ c = 8287 \/ c = 12288)%N.
Proof.
  unfold isspace, between.
  rewrite !orb_true_iff, !andb_true_iff, !N.leb_le, !N.eqb_eq. tauto.
Qed.

Lemma isspace_listed (c : char) :
  isspace c = true ->
  In c [9; 10; 11; 12; 13; 28; 29; 30; 31; 32; 133; 160; 5760;
        8192; 8193; 8194; 8195; 8196; 8197; 8198; 8199; 8200; 8201; 8202;
        8232; 8233; 8239; 8287; 12288]%N.
Proof.
  intros H. apply isspace_cases in H. cbn [In]. lia.
Qed.

Lemma find_run_some (c : char) (runs : list case_run) (r : case_run) :
  find_run c runs = Some r ->
  In r runs /\ between (run_first r) (run_last r) c = true.
Proof.
  induction runs as [|r0 runs IH]; cbn [find_run]; [discriminate|].
  destruct (N.ltb c (run_first r0)) eqn:E1; [discriminate|].
  destruct (N.leb c (run_last r0)) eqn:E2.
  - destruct (N.eqb _ 0); [|discriminate].
    intros H. injection H as <-. split; [left; reflexivity|].
    unfold between. rewrite E2, andb_true_r.
    apply N.leb_le. apply N.ltb_ge in E1. exact E1.
  - intros H. destruct (IH H) as [Hin Hb]. split; [right; exact Hin|exact Hb].
Qed.

(** No run of the lowercase table spans a whitespace code point. *)
Lemma lowercase_runs_spare_space :
  forallb (fun r =>
             forallb (fun w => negb (between (run_first r) (run_last r) w))
                     [9; 10; 11; 12; 13; 28; 29; 30; 31; 32; 133; 160; 5760;
                      8192; 8193; 8194; 8195; 8196; 8197; 8198; 8199; 8200;
                      8201; 8202; 8232; 8233; 8239; 8287; 12288]%N)
          lowercase_runs = true.
Proof. vm_compute. reflexivity. Qed.

Lemma tolower_space (c : char) : isspace c = true -> tolower c = c.
Proof.
  intros H. apply isspace_listed in H. unfold tolower.
  destruct (find_run c lowercase_runs) as [r|] eqn:F; [|reflexivity].
  exfalso. apply find_run_some in F. destruct F as [Hr Hc].
  pose proof lowercase_runs_spare_space as T.
  rewrite forallb_forall in T. specialize (T r Hr).
  rewrite forallb_forall in T. specialize (T c H).
  rewrite Hc in T. discriminate T.
Qed.

Lemma letter_not_space (p c : char) :
  is_letter p = true -> lit_match true p c = true -> isspace c = false.
Proof.
  intros Hp Hm. destruct (isspace c) eqn:Hc; [|reflexivity].
  exfalso. unfold lit_match in Hm. rewrite (tolower_space c Hc) in Hm.
  apply isspace_cases in Hc. unfold is_letter, between in Hp.
  rewrite andb_true_iff, !N.leb_le in Hp.
  rewrite !orb_true_iff, !andb_true_iff, !N.eqb_eq in Hm. lia.
Qed.

Lemma lower_at_space (before : str) (c : char) (after : str) :
  isspace c = true -> lower_at before c after = [c].
Proof.
  intros H. unfold lower_at. rewrite (tolower_space c H).
  apply isspace_cases in H.
  destruct (N.eqb c 931) eqn:E1; [apply N.eqb_eq in E1; lia|].
  destruct (N.eqb c 304) eqn:E2; [apply N.eqb_eq in E2; lia|].
  reflexivity.
Qed.

Lemma lowered_space (c0 c : char) :
  lowered c0 c -> isspace c = false -> isspace c0 = false.
Proof.
  intros [-> | [-> _]] Hc; [|reflexivity].
  destruct (isspace c0) eqn:E; [|reflexivity].
  rewrite (tolower_space c0 E) in Hc. congruence.
Qed.

(** Without U+0130 every code point has a lowercase form of one code
    point. *)
Lemma lower_at_lowered (before : str) (c : char) (after : str) :
  c <> 304%N -> exists c', lower_at before c after = [c'] /\ lowered c c'.
Proof.
  intros Hc. unfold lower_at, lowered.
  destruct (N.eqb c 931) eqn:E1.
  - apply N.eqb_eq in E1. subst c.
    destruct (final_sigma before after); eexists; split; try reflexivity.
    + right. split; reflexivity.
    + left. vm_compute. reflexivity.
  - destruct (N.eqb c 304) eqn:E2; [apply N.eqb_eq in E2; contradiction|].
    eexists. split; [reflexivity|]. left. reflexivity.
Qed.

Lemma starts_with_letter_head (r : regex) :
  starts_with_letter r = true ->
  forall s k x, rmatch true r s k = Some x ->
    exists c s' rest,
      s = c :: s' /\ isspace c = false
      /\ is_suffix rest s' /\ k rest = Some x.
Proof.
  induction r as [| p | | | | cs | r1 IH1 r2 IH2 | r1 IH1 r2 IH2 | r1 IH1];
    cbn [starts_with_letter rmatch]; try discriminate.
  - intros Hp [|c s] k x H; [discriminate H|].
    destruct (lit_match true p c) eqn:E; [|discriminate H].
    exists c, s, s. split; [reflexivity|].
    split; [eapply letter_not_space; eassumption|].
    split; [apply is_suffix_refl | exact H].
  - intros H1 s k x H.
    destruct (IH1 H1 _ _ _ H) as (c & s' & rest & Hs & Hc & Hsuf & Hk).
    apply rmatch_suffix in Hk. destruct Hk as [rest' [Hsuf' Hk]].
    exists c, s', rest'. repeat split; try assumption.
    eapply is_suffix_trans; eassumption.
  - intros H12 s k x H. apply andb_true_iff in H12. destruct H12 as [H1 H2].
    destruct (rmatch true r1 s k) eqn:E.
    + injection H as <-. eapply IH1; eassumption.
    + eapply IH2; eassumption.
Qed.

(** Each match reported by the scan lies in the scanned text, and its
    group 0 is the text between its offsets. *)
Lemma scan_spans (ic : bool) (r : regex) (s : str) (pos skip : nat) :
  Forall (fun m =>
            pos <= m_start m <= m_end m
            /\ m_end m <= pos + length s
            /\ group0 m = firstn (m_end m - m_start m)
                                 (skipn (m_start m - pos) s)
            /\ rmatch ic r (skipn (m_start m - pos) s) Some
               = Some (skipn (m_end m - pos) s))
         (scan ic r s pos skip).
Proof.
  revert pos skip. induction s as [|c s IH]; intros pos skip.
  - cbn [scan]. destruct skip; [|constructor].
    destruct (rmatch ic r [] Some) as [rest|] eqn:E; constructor;
      [|constructor].
    cbn. rewrite Nat.sub_diag. cbn.
    apply rmatch_rest in E as S. destruct S as [p S].
    destruct p; [|discriminate S]. simpl in S. subst rest.
    repeat split; try lia. exact E.
  - assert (Tail : forall skip',
               Forall (fun m =>
                 pos <= m_start m <= m_end m
                 /\ m_end m <= pos + length (c :: s)
                 /\ group0 m = firstn (m_end m - m_start m)
                                      (skipn (m_start m - pos) (c :: s))
                 /\ rmatch ic r (skipn (m_start m - pos) (c :: s)) Some
                    = Some (skipn (m_end m - pos) (c :: s)))
                 (scan ic r s (S pos) skip')).
    { intros skip'. eapply Forall_impl; [|apply (IH (S pos) skip')].
      intros m (H1 & H2 & H3 & H4).
      replace (m_start m - pos) with (S (m_start m - S pos)) by lia.
      replace (m_end m - pos) with (S (m_end m - S pos)) by lia.
      cbn [skipn length]. repeat split; try lia; assumption. }
    cbn [scan]. destruct skip as [|j]; [|apply Tail].
    destruct (rmatch ic r (c :: s) Some) as [rest|] eqn:E; [|apply Tail].
    constructor; [|apply Tail].
    apply rmatch_rest in E as S. destruct S as [p S].
    assert (L : length (c :: s) - length rest = length p).
    { rewrite S, length_app. lia. }
    rewrite L. cbn [m_start m_end group0].
    replace (pos + length p - pos) with (length p) by lia.
    rewrite Nat.sub_diag. cbn [skipn].
    assert (L2 : length (c :: s) = length p + length rest)
      by (rewrite S, length_app; reflexivity).
    repeat split; try lia.
    rewrite E. f_equal. rewrite S.
    rewrite skipn_app, Nat.sub_diag, skipn_all. reflexivity.
Qed.

Lemma finditer_spans (r : regex) (s : str) (ic : bool) (m : re_match) :
  In m (finditer r s ic) ->
  m_start m <= m_end m <= length s
  /\ group0 m = firstn (m_end m - m_start m) (skipn (m_start m) s)
  /\ rmatch ic r (skipn (m_start m) s) Some = Some (skipn (m_end m) s).
Proof.
  intros H. pose proof (scan_spans ic r s 0 0) as F.
  rewrite Forall_forall in F. specialize (F m H).
  rewrite !Nat.sub_0_r in F. simpl in F. intuition lia.
Qed.

End SpanFacts.

(* ================================================================== *)
(** * Offsets and clauses of the detected risks *)
(* ================================================================== *)

Section ClauseFacts.

Import Re RiskAnalyzer.

Lemma lower_keeps_offsets (s : str) :
  keeps_offsets s -> Forall2 lowered s (lower s).
Proof.
  unfold lower. generalize (@nil char) as before.
  induction s as [|c s IH]; intros before H; [constructor|].
  inversion H as [|? ? Hc Hs]; subst. cbn [lower_from].
  destruct (lower_at_lowered before c s Hc) as (c' & E & L).
  rewrite E. cbn [app]. constructor; [exact L | apply IH; exact Hs].
Qed.

Lemma Forall2_slice (A B : Type) (R : A -> B -> Prop)
      (l1 : list A) (l2 : list B) :
  Forall2 R l1 l2 ->
  forall a b, Forall2 R (firstn b (skipn a l1)) (firstn b (skipn a l2)).
Proof.
  induction 1 as [|x y l1 l2 Hxy H IH]; intros a b.
  - rewrite !skipn_nil, !firstn_nil. constructor.
  - destruct a as [|a]; [|apply IH].
    destruct b as [|b]; cbn [skipn firstn]; constructor; [exact Hxy|].
    apply (IH 0 b).
Qed.

Lemma In_firstn (A : Type) (n : nat) (l : list A) (x : A) :
  In x (firstn n l) -> In x l.
Proof.
  intros H. rewrite <- (firstn_skipn n l). apply in_or_app. left. exact H.
Qed.

Lemma In_skipn (A : Type) (n : nat) (l : list A) (x : A) :
  In x (skipn n l) -> In x l.
Proof.
  intros H. rewrite <- (firstn_skipn n l). apply in_or_app. right. exact H.
Qed.

Lemma In_lower (s : str) (c : char) :
  In c (lower s) -> isspace c = false ->
  exists c0, In c0 s /\ isspace c0 = false.
Proof.
  unfold lower. generalize (@nil char) as before.
  induction s as [|a s IH]; intros before H Hc; [destruct H|].
  cbn [lower_from] in H. apply in_app_or in H.
  destruct (isspace a) eqn:Ha.
  - destruct H as [H | H].
    + rewrite (lower_at_space before a s Ha) in H.
      destruct H as [<- | []]. congruence.
    + destruct (IH _ H Hc) as (c0 & H0 & Hc0).
      exists c0. split; [right; exact H0 | exact Hc0].
  - exists a. split; [left; reflexivity | exact Ha].
Qed.

Lemma startswith_head (s p : str) (c : char) :
  startswith s (c :: p) = true -> exists s', s = c :: s'.
Proof.
  destruct s as [|y s]; simpl; [discriminate|].
  intros H. apply andb_true_iff in H. destruct H as [H _].
  apply char_eqb_eq in H. subst. exists s. reflexivity.
Qed.

Lemma contains_head (hay needle : str) (c : char) :
  contains hay (c :: needle) = true -> In c hay.
Proof.
  induction hay as [|y hay IH]; cbn [contains].
  - simpl. discriminate.
  - intros H. apply orb_true_iff in H. destruct H as [H | H].
    + apply startswith_head in H. destruct H as [s' H].
      injection H as -> _. left. reflexivity.
    + right. apply IH. exact H.
Qed.

Lemma In_slice (s : str) (a b a' b' : Z) (c : char) :
  (0 <= a' <= a)%Z -> (b <= b')%Z -> In c (slice s a b) -> In c (slice s a' b').
Proof.
  intros Ha Hb H. unfold slice in *.
  apply In_nth_error in H. destruct H as [i H].
  rewrite nth_error_firstn in H.
  destruct (Nat.ltb i (Z.to_nat (b - a))) eqn:E; [|discriminate H].
  apply Nat.ltb_lt in E. rewrite nth_error_skipn in H.
  apply (nth_error_In _ (Z.to_nat a + i - Z.to_nat a')).
  rewrite nth_error_firstn.
  assert (L : Nat.ltb (Z.to_nat a + i - Z.to_nat a') (Z.to_nat (b' - a'))
              = true) by (apply Nat.ltb_lt; lia).
  rewrite L, nth_error_skipn.
  replace (Z.to_nat a' + (Z.to_nat a + i - Z.to_nat a'))
    with (Z.to_nat a + i) by lia.
  exact H.
Qed.

(** The matches of the catalog's patterns begin with a character that
    is not whitespace. *)
Lemma catalog_starts_with_letter :
  forallb (fun p => starts_with_letter (Pattern.pattern p)) RISK_PATTERNS
  = true.
Proof. vm_compute. reflexivity. Qed.

Lemma catalog_match_head (p : Pattern.t) (s : str) (m : re_match) :
  In p RISK_PATTERNS ->
  In m (finditer (Pattern.pattern p) s true) ->
  exists c g, group0 m = c :: g /\ isspace c = false.
Proof.
  intros Hp Hm.
  pose proof catalog_starts_with_letter as C.
  rewrite forallb_forall in C. specialize (C p Hp).
  destruct (finditer_spans _ _ _ _ Hm) as (Hle & Hg & Hr).
  destruct (starts_with_letter_head _ C _ _ _ Hr)
    as (c & s' & rest & Hs & Hc & [q Hq] & Hk).
  injection Hk as ->. subst s'.
  assert (Lq : length (c :: q) = m_end m - m_start m).
  { apply (f_equal (@length char)) in Hs.
    cbn [length] in *. rewrite length_app, !length_skipn in Hs. lia. }
  exists c, q. split; [|exact Hc].
  rewrite Hg, Hs, <- Lq.
  change (c :: q ++ skipn (m_end m) s) with ((c :: q) ++ skipn (m_end m) s).
  rewrite firstn_app, Nat.sub_diag, firstn_all.
  cbn [firstn]. apply app_nil_r.
Qed.

(** On a text whose lowercase form keeps the offsets, every detected
    risk has the offsets of its matched text in the text, and a clause
    that is not empty; on every text the clause is trimmed. *)
Lemma candidate_spans (text : str) (r : Risk.t) :
  In r (candidates RISK_PATTERNS text) ->
  trimmed (Risk.clause r)
  /\ (keeps_offsets text ->
      offsets_in text r /\ nonempty (Risk.clause r) = true).
Proof.
  intros H. apply candidates_In in H.
  destruct H as (p & m & Hp & Hm & ->).
  cbn [make_risk Risk.clause Risk.start_position Risk.end_position
       Risk.original_text].
  split.
  - unfold context_of.
    destruct (find _ _); apply strip_trimmed.
  - intros Hk.
    destruct (finditer_spans _ _ _ _ Hm) as (Hle & Hg & _).
    destruct (catalog_match_head _ _ _ Hp Hm) as (c & g & Eg & Hc).
    pose proof (lower_keeps_offsets text Hk) as L.
    assert (Hlen : length (lower text) = length text)
      by (symmetry; eapply Forall2_length; exact L).
    rewrite Hlen in Hle.
    assert (Hslice : Forall2 lowered
                       (slice text (Z.of_nat (m_start m))
                              (Z.of_nat (m_end m)))
                       (group0 m)).
    { unfold slice. rewrite Hg, Nat2Z.id.
      replace (Z.to_nat (Z.of_nat (m_end m) - Z.of_nat (m_start m)))
        with (m_end m - m_start m) by lia.
      apply Forall2_slice. exact L. }
    split.
    + unfold offsets_in. cbn. unfold len.
      split; [lia|]. split; [lia|]. exact Hslice.
    + unfold context_of.
      destruct (find _ _) as [sentence|] eqn:F.
      * apply find_some in F. destruct F as [_ F]. rewrite Eg in F.
        apply contains_head in F.
        destruct (In_lower _ _ F Hc) as (c0 & H0 & Hc0).
        eapply strip_nonempty; eassumption.
      * rewrite Eg in Hslice.
        inversion Hslice as [|c0 c' l0 l' Hl Hrest E0 E1]; subst c' l'.
        pose proof (lowered_space _ _ Hl Hc) as Hc0.
        eapply strip_nonempty; [|exact Hc0].
        eapply In_slice; [| |rewrite <- E0; left; reflexivity];
          unfold len; lia.
Qed.

Lemma analyze_spans (text : str) :
  Forall (fun r => trimmed (Risk.clause r)) (analyze text)
  /\ (keeps_offsets text ->
      Forall (fun r => offsets_in text r /\ nonempty (Risk.clause r) = true)
             (analyze text)).
Proof.
  split; [|intros Hk]; apply Forall_forall; intros r Hr;
    apply analyze_In_candidates, candidate_spans in Hr.
  - tauto.
  - apply Hr. exact Hk.
Qed.

End ClauseFacts.

(** C9 on the text U+0130 followed by [ as is]: the reported offsets
    3 and 8 are those of the match in the lowercased text, which is one
    character longer; in the input the matched words stand at 2 to 7,
    and the input cut at 3 and 8 is [s is]. On a text of 113 such
    letters followed by [waive. rights] the window cut with these
    offsets is empty, and so is the clause. ([analyze_spans] gives the
    offsets and a non-empty clause for the texts without U+0130.) *)
Theorem C9_offsets_of_lowered_text :
  map (fun r => (Risk.original_text r,
                 Risk.start_position r, Risk.end_position r))
      (RiskAnalyzer.analyze Samples.dotted_text)
  = [(lit "as is", 3%Z, 8%Z)]
  /\ slice (lower Samples.dotted_text) 3 8 = lit "as is"
  /\ slice Samples.dotted_text 3 8 = lit "s is"
  /\ slice Samples.dotted_text 2 7 = lit "as is"
  /\ map (fun r => (Risk.risk_type r, Risk.clause r,
                    Risk.start_position r, Risk.end_position r))
         (RiskAnalyzer.analyze Samples.long_dotted_text)
     = [(lit "Waiver of Rights", [], 226%Z, 239%Z)]
  /\ len Samples.long_dotted_text = 126%Z.
Proof. repeat split; vm_compute; reflexivity. Qed.

(* ================================================================== *)
(** * Further properties of [RiskAnalyzer.analyze] *)
(* ================================================================== *)

Section AnalyzerFacts.

Import Re RiskAnalyzer.

Lemma keeps_offsets_check (text : str) :
  forallb (fun c => negb (N.eqb c 304)) text = true -> keeps_offsets text.
Proof.
  intros H. apply Forall_forall. intros c Hc.
  rewrite forallb_forall in H. specialize (H c Hc).
  apply negb_true_iff, N.eqb_neq in H. exact H.
Qed.

Lemma blank_check (text : str) : forallb isspace text = true -> blank text.
Proof.
  intros H. apply Forall_forall. intros c Hc.
  rewrite forallb_forall in H. apply H. exact Hc.
Qed.

Lemma group0_In (r : regex) (s : str) (ic : bool) (m : re_match) (c : char) :
  In m (finditer r s ic) -> In c (group0 m) -> In c s.
Proof.
  intros Hm Hc. destruct (finditer_spans _ _ _ _ Hm) as (_ & Hg & _).
  rewrite Hg in Hc. apply In_firstn, In_skipn in Hc. exact Hc.
Qed.

Lemma catalog_lookup_sound :
  forallb (fun p =>
             match lookup (Pattern.name p) with
             | Some (s, e) =>
                 severity_eqb s (Pattern.severity p)
                 && str_eqb e (Pattern.explanation p)
             | None => false
             end) RISK_PATTERNS = true.
Proof. vm_compute. reflexivity. Qed.

Lemma severity_eqb_eq (a b : severity_level) :
  severity_eqb a b = true -> a = b.
Proof. destruct a, b; simpl; congruence. Qed.

Lemma catalog_lookup_In (p : Pattern.t) :
  In p RISK_PATTERNS ->
  lookup (Pattern.name p) = Some (Pattern.severity p, Pattern.explanation p).
Proof.
  intros Hp. pose proof catalog_lookup_sound as H.
  rewrite forallb_forall in H. specialize (H p Hp).
  destruct (lookup (Pattern.name p)) as [[s e]|]; [|discriminate H].
  apply andb_true_iff in H. destruct H as [Hs He].
  apply severity_eqb_eq in Hs. apply str_eqb_eq in He. congruence.
Qed.

Lemma analyze_nil_candidates (text : str) :
  analyze text = [] <-> candidates RISK_PATTERNS text = [].
Proof.
  split; intros H.
  - destruct (candidates RISK_PATTERNS text) as [|c cs] eqn:E; [reflexivity|].
    exfalso.
    pose proof (analyze_perm text) as P. rewrite H, E in P.
    cbn in P. apply Permutation_nil in P. discriminate P.
  - pose proof (analyze_perm text) as P. rewrite H in P. cbn in P.
    apply Permutation_sym, Permutation_nil in P. exact P.
Qed.

End AnalyzerFacts.

(** X1: a text made of whitespace only (the empty text included) has
    no risk. *)
Theorem X1_blank_text_no_risk (text : str) :
  blank text -> RiskAnalyzer.analyze text = [].
Proof.
  intros Hb. destruct (RiskAnalyzer.analyze text) as [|r rs] eqn:E;
    [reflexivity|].
  exfalso.
  assert (Hr : In r (RiskAnalyzer.analyze text))
    by (rewrite E; left; reflexivity).
  apply analyze_In_candidates, candidates_In in Hr.
  destruct Hr as (p & m & Hp & Hm & _).
  destruct (catalog_match_head _ _ _ Hp Hm) as (c & g & Eg & Hc).
  assert (Hin : In c (lower text)).
  { eapply group0_In; [exact Hm|]. rewrite Eg. left. reflexivity. }
  destruct (In_lower _ _ Hin Hc) as (c0 & H0 & Hc0).
  unfold blank in Hb. rewrite Forall_forall in Hb.
  rewrite (Hb c0 H0) in Hc0. discriminate Hc0.
Qed.

(** Spaces, a tab and a newline. *)
Lemma X1_blank_text_no_risk_witness :
  RiskAnalyzer.analyze Samples.blank_text = [].
Proof.
  apply (X1_blank_text_no_risk Samples.blank_text).
  apply blank_check. vm_compute. reflexivity.
Defined.

(** X2: the analyzer reports nothing exactly when no pattern of the
    catalog matches the lowercased text: the first match found is
    always reported. *)
Theorem X2_no_risk_iff_no_match (text : str) :
  RiskAnalyzer.analyze text = []
  <-> Forall (fun p =>
                Re.finditer (Pattern.pattern p) (lower text) true = [])
             RiskAnalyzer.RISK_PATTERNS.
Proof.
  rewrite analyze_nil_candidates. unfold candidates.
  generalize RiskAnalyzer.RISK_PATTERNS. intros ps.
  induction ps as [|p ps IH]; cbn [flat_map].
  - split; [constructor | reflexivity].
  - split.
    + intros H. apply app_eq_nil in H. destruct H as [H1 H2].
      constructor; [|apply IH; exact H2].
      destruct (Re.finditer _ _ _); [reflexivity | discriminate H1].
    + intros H. inversion H as [|? ? H1 H2]; subst.
      rewrite H1. cbn. apply IH. exact H2.
Qed.

(** X3: the type, the severity and the explanation of every risk are
    those of one entry of the catalog, and the catalog gives one
    severity and one explanation to a type: they are a function of the
    risk type. *)
Theorem X3_fields_from_catalog (text : str) :
  Forall (fun r =>
            lookup (Risk.risk_type r)
            = Some (Risk.severity r, Risk.explanation r))
         (RiskAnalyzer.analyze text).
Proof.
  apply Forall_forall. intros r Hr.
  apply analyze_In_candidates, candidates_In in Hr.
  destruct Hr as (p & m & Hp & _ & ->).
  cbn [RiskAnalyzer.make_risk Risk.risk_type Risk.severity Risk.explanation].
  apply catalog_lookup_In. exact Hp.
Qed.

(** X4: no two returned risks have the same type and the same clause
    text. *)
Theorem X4_type_and_clause_unique (text : str) :
  NoDup (map (fun r => (Risk.risk_type r, Risk.clause r))
             (RiskAnalyzer.analyze text)).
Proof.
  assert (Hids : NoDup (map Risk.id (RiskAnalyzer.analyze text))).
  { eapply Permutation_NoDup.
    - apply Permutation_map. symmetry. apply analyze_perm.
    - apply first_by_id_NoDup. }
  assert (E : map Risk.id (RiskAnalyzer.analyze text)
              = map (fun tc => RiskAnalyzer.fingerprint (fst tc) (snd tc))
                    (map (fun r => (Risk.risk_type r, Risk.clause r))
                         (RiskAnalyzer.analyze text))).
  { rewrite map_map. apply map_ext_in. intros r Hr.
    apply analyze_In_candidates, candidates_In in Hr.
    destruct Hr as (p & m & _ & _ & ->). reflexivity. }
  rewrite E in Hids. apply NoDup_map_inv in Hids. exact Hids.
Qed.

(** X5: on every text, the offsets of a risk delimit a non-empty span
    of the lowercased text, and [original_text] is that span: the
    matched text as it is lowercased, not as it is written in the
    input. *)
Theorem X5_offsets_in_lowered_text (text : str) :
  Forall (fun r =>
            (0 <= Risk.start_position r < Risk.end_position r)%Z
            /\ (Risk.end_position r <= len (lower text))%Z
            /\ Risk.original_text r
               = slice (lower text)
                       (Risk.start_position r) (Risk.end_position r)
            /\ nonempty (Risk.original_text r) = true)
         (RiskAnalyzer.analyze text).
Proof.
  apply Forall_forall. intros r Hr.
  apply analyze_In_candidates, candidates_In in Hr.
  destruct Hr as (p & m & Hp & Hm & ->).
  cbn [RiskAnalyzer.make_risk Risk.start_position Risk.end_position
       Risk.original_text].
  destruct (finditer_spans _ _ _ _ Hm) as (Hle & Hg & _).
  destruct (catalog_match_head _ _ _ Hp Hm) as (c & g & Eg & _).
  assert (Hlt : Re.m_start m < Re.m_end m).
  { destruct (Nat.eq_dec (Re.m_end m - Re.m_start m) 0) as [Z0|]; [|lia].
    rewrite Z0 in Hg. cbn in Hg. congruence. }
  unfold len. repeat split; try lia.
  - unfold slice. rewrite Nat2Z.id.
    replace (Z.to_nat (Z.of_nat (Re.m_end m) - Z.of_nat (Re.m_start m)))
      with (Re.m_end m - Re.m_start m) by lia.
    exact Hg.
  - rewrite Eg. reflexivity.
Qed.

(** X6: the clause text of every risk has no whitespace at either
    end, whatever the text. *)
Theorem X6_clause_trimmed (text : str) :
  Forall (fun r => trimmed (Risk.clause r)) (RiskAnalyzer.analyze text).
Proof. apply analyze_spans. Qed.

(** X7: on a text without U+0130 (the one code point whose lowercase
    form is longer), the offsets of every risk lie in the text, the
    matched text is, character by character, a lowercase form of the
    text between them (the simple lowercase mapping of the character,
    or the final sigma for a capital sigma), and the clause is not
    empty. *)
Theorem X7_offsets_in_text (text : str) :
  keeps_offsets text ->
  Forall (fun r => offsets_in text r /\ nonempty (Risk.clause r) = true)
         (RiskAnalyzer.analyze text).
Proof. apply analyze_spans. Qed.

(** The sentence on arbitration. *)
Lemma X7_offsets_in_text_witness :
  Forall (fun r => offsets_in Samples.arbitration_text r
                   /\ nonempty (Risk.clause r) = true)
         (RiskAnalyzer.analyze Samples.arbitration_text).
Proof.
  apply (X7_offsets_in_text Samples.arbitration_text).
  apply keeps_offsets_check. vm_compute. reflexivity.
Defined.

(** X22: the ids of the returned risks are pairwise distinct; each id
    is the fingerprint of the risk's type and clause, twelve
    hexadecimal characters; the collected risks are the candidates
    whose fingerprint was not collected before, a match with a
    collected fingerprint being discarded; and every match is
    represented in the result by a risk that carries its
    fingerprint. *)
Theorem X22_ids_are_fingerprints (text : str) :
  let risks := RiskAnalyzer.analyze text in
  let cands := candidates RiskAnalyzer.RISK_PATTERNS text in
  NoDup (map Risk.id risks)
  /\ Forall (fun r =>
               Risk.id r
               = RiskAnalyzer.fingerprint (Risk.risk_type r) (Risk.clause r)
               /\ length (Risk.id r) = 12
               /\ forallb is_hex (Risk.id r) = true) risks
  /\ RiskAnalyzer.detect RiskAnalyzer.RISK_PATTERNS text
     = fold_left RiskAnalyzer.append_new cands []
  /\ Permutation risks (fold_left RiskAnalyzer.append_new cands [])
  /\ (forall collected risk,
         In (Risk.id risk) (map Risk.id collected) ->
         RiskAnalyzer.append_new collected risk = collected)
  /\ (forall collected risk,
         ~ In (Risk.id risk) (map Risk.id collected) ->
         RiskAnalyzer.append_new collected risk = collected ++ [risk])
  /\ (forall c, In c cands ->
                exists r, In r risks /\ Risk.id r = Risk.id c).
Proof.
  intros risks cands.
  assert (Hperm : Permutation risks (first_by_id [] cands))
    by apply analyze_perm.
  assert (Hfold : fold_left RiskAnalyzer.append_new cands []
                  = first_by_id [] cands) by apply fold_append_new.
  split; [|split; [|split; [|split; [|split; [|split]]]]].
  - eapply Permutation_NoDup.
    + apply Permutation_map. symmetry. exact Hperm.
    + apply first_by_id_NoDup.
  - apply Forall_forall. intros r Hr.
    apply analyze_In_candidates, candidates_In in Hr.
    destruct Hr as [p [m [_ [_ ->]]]]. cbn.
    split; [reflexivity|]. split.
    + apply fingerprint_length.
    + apply fingerprint_hex.
  - unfold RiskAnalyzer.detect. apply fold_scan_patterns.
  - rewrite Hfold. exact Hperm.
  - apply append_new_seen.
  - apply append_new_fresh.
  - intros c Hc.
    destruct (first_by_id_covers [] cands c Hc) as [[] | H].
    apply in_map_iff in H. destruct H as [r [E Hr]].
    exists r. split; [|exact E].
    eapply Permutation_in; [symmetry; exact Hperm | exact Hr].
Qed.

(* ================================================================== *)
(** * Further properties of the rewrite engine *)
(* ================================================================== *)

Section RewriteFacts.

Import RewriteEngine.

Lemma parse_rewrites_length (blob : str) (n : Z) :
  (0 <= n)%Z -> length (_parse_rewrites blob n) = Z.to_nat n.
Proof.
  intros Hn. rewrite parse_rewrites_recovered by exact Hn.
  rewrite length_firstn, length_app, repeat_length. lia.
Qed.

Lemma pad_loop_Forall (P : str -> Prop) (fuel : nat) (rewrites : list str)
      (n : Z) :
  P placeholder -> Forall P rewrites -> Forall P (pad_loop fuel rewrites n).
Proof.
  intros Hp. revert rewrites.
  induction fuel as [|fuel IH]; intros rewrites H; [exact H|].
  cbn [pad_loop]. destruct (Z.ltb (len rewrites) n); [|exact H].
  apply IH. apply Forall_app. split; [exact H|].
  constructor; [exact Hp | constructor].
Qed.

(** What holds of the placeholder and of every trimmed string holds of
    every parsed rewrite. *)
Lemma parse_rewrites_Forall (P : str -> Prop) (blob : str) (n : Z) :
  P placeholder -> (forall s, P (strip s)) ->
  Forall P (_parse_rewrites blob n).
Proof.
  intros Hp Hs. unfold _parse_rewrites.
  rewrite fold_keep_part. cbn [app].
  set (kept := filter nonempty (map strip (tl (Re.split marker_re blob)))).
  assert (Hkept : Forall P kept).
  { apply Forall_forall. intros x Hx. apply filter_In in Hx.
    destruct Hx as [Hx _]. apply in_map_iff in Hx.
    destruct Hx as [part [<- _]]. apply Hs. }
  assert (Hfall : Forall P match kept, strip blob with
                           | [], _ :: _ => kept ++ [strip blob]
                           | _, _ => kept
                           end).
  { destruct kept; [|exact Hkept].
    destruct (strip blob) eqn:E; [constructor|].
    rewrite <- E. constructor; [apply Hs | constructor]. }
  assert (Hpad : Forall P (pad_loop (Z.to_nat n)
                             match kept, strip blob with
                             | [], _ :: _ => kept ++ [strip blob]
                             | _, _ => kept
                             end n))
    by (apply pad_loop_Forall; assumption).
  unfold take. apply Forall_forall. intros x Hx.
  rewrite Forall_forall in Hpad. apply Hpad.
  destruct (Z.ltb n 0); apply In_firstn in Hx; exact Hx.
Qed.

Lemma strip_nil_blank (s : str) : strip s = [] -> blank s.
Proof.
  intros H. apply Forall_forall. intros c Hc.
  destruct (isspace c) eqn:E; [reflexivity|].
  pose proof (strip_nonempty s c Hc E) as G. rewrite H in G. discriminate G.
Qed.

Lemma blank_strip (s : str) : blank s -> strip s = [].
Proof.
  intros H. assert (L : lstrip s = []).
  { induction H as [|c s Hc Hs IH]; [reflexivity|].
    simpl. rewrite Hc. exact IH. }
  unfold strip, rstrip. rewrite L. reflexivity.
Qed.

Lemma cut_In (ms : list Re.re_match) (pos : nat) (s part : str) (c : char) :
  In part (Re.cut ms pos s) -> In c part -> In c s.
Proof.
  revert pos s. induction ms as [|m ms IH]; intros pos s; cbn [Re.cut].
  - intros [<- | []] Hc. exact Hc.
  - intros [<- | H] Hc.
    + apply In_firstn in Hc. exact Hc.
    + eapply In_skipn. eapply IH; eassumption.
Qed.

Lemma blank_recovered (blob : str) : strip blob = [] -> recovered blob = [].
Proof.
  intros H. pose proof (strip_nil_blank blob H) as Hb.
  assert (S : segments blob = []).
  { unfold segments.
    destruct (filter nonempty (map strip (tl (Re.split marker_re blob))))
      as [|x xs] eqn:E; [reflexivity|].
    exfalso.
    assert (Hx : In x (filter nonempty
                         (map strip (tl (Re.split marker_re blob)))))
      by (rewrite E; left; reflexivity).
    apply filter_In in Hx. destruct Hx as [Hx Hne].
    apply in_map_iff in Hx. destruct Hx as [part [<- Hpart]].
    assert (Hin : In part (Re.split marker_re blob)).
    { destruct (Re.split marker_re blob); [destruct Hpart|].
      right. exact Hpart. }
    assert (Hblank : blank part).
    { apply Forall_forall. intros c Hc.
      unfold blank in Hb. rewrite Forall_forall in Hb. apply Hb.
      eapply cut_In; eassumption. }
    rewrite (blank_strip part Hblank) in Hne. discriminate Hne. }
  unfold recovered. rewrite S, H. reflexivity.
Qed.

(** Trimming a trimmed string changes nothing. *)
Lemma strip_same (s : str) : trimmed s -> strip s = s.
Proof.
  intros [Hl Hr]. unfold strip, rstrip.
  assert (L : forall t, no_leading_space t -> lstrip t = t).
  { intros [|c t]; [reflexivity|]. cbn. intros ->. reflexivity. }
  rewrite (L s Hl), (L (rev s) Hr). apply rev_involutive.
Qed.

Lemma placeholder_trimmed : trimmed placeholder.
Proof. split; vm_compute; reflexivity. Qed.

End RewriteFacts.

(** X8: [rewrite_clauses] always returns; a returned list has one
    entry per clause; the service is called at most once, with the
    prompt built from the clauses, and only by an engine that has a
    model, for a batch that is not empty. *)
Theorem X8_rewrite_clauses_shape (self : RewriteEngine.t)
        (clauses : list str) (log : calls) :
  exists rewrites log',
    RewriteEngine.rewrite_clauses self clauses log = (Returned rewrites, log')
    /\ match rewrites with
       | Some rs => length rs = length clauses
       | None => True
       end
    /\ (log' = log
        \/ (log' = log ++ [RewriteEngine._build_rewrite_prompt clauses]
            /\ clauses <> []
            /\ exists m, RewriteEngine.model self = Some m)).
Proof.
  destruct clauses as [|clause clauses].
  - unfold RewriteEngine.rewrite_clauses, ret.
    destruct (RewriteEngine.model self); eexists _, log;
      (split; [reflexivity|]); split; auto.
  - rewrite rewrite_clauses_batch.
    destruct (RewriteEngine.model self) as [m|].
    + cbn zeta. destruct (m _) as [blob|e]; eexists _, _;
        (split; [reflexivity|]); split.
      * rewrite parse_rewrites_length by (unfold len; lia).
        unfold len. apply Nat2Z.id.
      * right. split; [reflexivity|]. split; [discriminate|].
        exists m. reflexivity.
      * exact I.
      * right. split; [reflexivity|]. split; [discriminate|].
        exists m. reflexivity.
    + eexists _, log. split; [reflexivity|]. split; auto.
Qed.

(** X9: every string returned by the parser is free of whitespace at
    both ends, whatever the blob and the count. *)
Theorem X9_rewrites_trimmed (blob : str) (N : Z) :
  Forall trimmed (RewriteEngine._parse_rewrites blob N).
Proof.
  apply parse_rewrites_Forall.
  - apply placeholder_trimmed.
  - apply strip_trimmed.
Qed.

(** X10: a reply that is empty or made of whitespace only gives the
    placeholder for every clause. *)
Theorem X10_blank_reply (blob : str) (N : Z) :
  strip blob = [] -> (0 <= N)%Z ->
  RewriteEngine._parse_rewrites blob N
  = repeat RewriteEngine.placeholder (Z.to_nat N).
Proof.
  intros Hb HN. rewrite parse_rewrites_recovered by exact HN.
  rewrite (blank_recovered blob Hb). cbn [app length].
  rewrite Nat.sub_0_r. apply firstn_all2. rewrite repeat_length. lia.
Qed.

(** A reply of spaces and a newline, for two clauses. *)
Lemma X10_blank_reply_witness :
  RewriteEngine._parse_rewrites Samples.blank_text 2
  = [RewriteEngine.placeholder; RewriteEngine.placeholder].
Proof.
  apply (X10_blank_reply Samples.blank_text 2).
  - vm_compute. reflexivity.
  - lia.
Defined.

(* ================================================================== *)
(** * Further properties of the summary engine and of the endpoints *)
(* ================================================================== *)

Section EndpointFacts.

Lemma generate_summary_log (self : SummaryEngine.t) (text : str)
      (log : calls) :
  exists summary sent,
    SummaryEngine.generate_summary self text log
    = (Returned summary, log ++ sent)
    /\ (sent = []
        \/ (sent = [SummaryEngine.summary_prompt
                      (firstn (Z.to_nat 8000) text)]
            /\ (50 <= len (strip text))%Z
            /\ exists m, SummaryEngine.model self = Some m)).
Proof.
  unfold SummaryEngine.generate_summary.
  destruct (SummaryEngine.model self) as [m|].
  - destruct (_ || _) eqn:E.
    + eexists _, []. rewrite app_nil_r. split; [reflexivity | auto].
    + apply orb_false_iff in E. destruct E as [_ E]. apply Z.ltb_ge in E.
      unfold try_except, bind, generate_content, ret.
      destruct (m _); eexists _, [_]; (split; [reflexivity|]);
        right; (split; [reflexivity|]); (split; [exact E|]);
        exists m; reflexivity.
  - eexists _, []. rewrite app_nil_r. split; [reflexivity | auto].
Qed.

Lemma rewrite_step_log (rewrite_engine : RewriteEngine.t)
      (risks : list Risk.t) (log : calls) :
  exists rewrites sent,
    Main.rewrite_step rewrite_engine risks log
    = (Returned (rewrites,
                 match rewrites with
                 | Some (w :: ws) => Main.attach (w :: ws) risks
                 | _ => risks
                 end), log ++ sent)
    /\ length sent <= match risks with [] => 0 | _ :: _ => 1 end.
Proof.
  destruct risks as [|risk risks].
  - exists None, []. rewrite app_nil_r. split; [reflexivity | simpl; lia].
  - unfold Main.rewrite_step, try_except, bind.
    cbn [map]. rewrite rewrite_clauses_batch.
    destruct (RewriteEngine.model rewrite_engine) as [m|].
    + cbn zeta. destruct (m _) as [rewritten_text|e].
      * exists (Some (RewriteEngine._parse_rewrites
                        rewritten_text
                        (len (map Risk.clause (risk :: risks))))).
        eexists [_]. split; [|simpl; lia]. cbn [map].
        destruct (RewriteEngine._parse_rewrites rewritten_text _);
          reflexivity.
      * exists None. eexists [_]. split; [reflexivity | simpl; lia].
    + exists None, []. rewrite app_nil_r. split; [reflexivity | simpl; lia].
Qed.

Lemma attach_from_all (i : nat) (rewrites : list str) (risks : list Risk.t) :
  i + length risks <= length rewrites ->
  forallb nonempty rewrites = true ->
  forallb has_rewrite (Main.attach_from i rewrites risks) = true.
Proof.
  intros Hlen Hne. revert i Hlen.
  induction risks as [|risk risks IH]; intros i Hlen; [reflexivity|].
  cbn [Main.attach_from forallb length] in *.
  rewrite IH by lia. rewrite andb_true_r. unfold len.
  assert (L : Z.ltb (Z.of_nat i) (Z.of_nat (length rewrites)) = true)
    by (apply Z.ltb_lt; lia).
  rewrite L. unfold has_rewrite. cbn.
  rewrite forallb_forall in Hne. apply Hne. apply nth_In. lia.
Qed.

End EndpointFacts.

(** X11: [generate_summary] always returns a string; it calls the
    service at most once, only when the engine has a model and the
    trimmed text has at least 50 characters, and the prompt holds the
    first 8000 characters of the text. *)
Theorem X11_summary_one_call (self : SummaryEngine.t) (text : str)
        (log : calls) :
  exists summary sent,
    SummaryEngine.generate_summary self text log
    = (Returned summary, log ++ sent)
    /\ (sent = []
        \/ (sent = [SummaryEngine.summary_prompt
                      (firstn (Z.to_nat 8000) text)]
            /\ (50 <= len (strip text))%Z
            /\ exists m, SummaryEngine.model self = Some m)).
Proof. apply generate_summary_log. Qed.

(** X12: two texts of trimmed length 50 or more that agree on their
    first 8000 characters get the same summary and the same call:
    what follows the first 8000 characters is not read. *)
Theorem X12_summary_reads_prefix (self : SummaryEngine.t)
        (text1 text2 : str) (log : calls) :
  firstn (Z.to_nat 8000) text1 = firstn (Z.to_nat 8000) text2 ->
  (50 <= len (strip text1))%Z -> (50 <= len (strip text2))%Z ->
  SummaryEngine.generate_summary self text1 log
  = SummaryEngine.generate_summary self text2 log.
Proof.
  intros E H1 H2. unfold SummaryEngine.generate_summary.
  destruct (SummaryEngine.model self) as [m|]; [|reflexivity].
  assert (N1 : match text1 with [] => true | _ :: _ => false end = false).
  { destruct text1; [|reflexivity]. vm_compute in H1. contradiction. }
  assert (N2 : match text2 with [] => true | _ :: _ => false end = false).
  { destruct text2; [|reflexivity]. vm_compute in H2. contradiction. }
  apply Z.ltb_ge in H1, H2. rewrite N1, N2, H1, H2. cbn [orb].
  rewrite E. reflexivity.
Qed.

(** Two texts of 8001 and 8002 characters with the same first 8000. *)
Lemma X12_summary_reads_prefix_witness :
  SummaryEngine.generate_summary
    Samples.configured_summary Samples.long_text_a []
  = SummaryEngine.generate_summary
      Samples.configured_summary Samples.long_text_b [].
Proof.
  apply (X12_summary_reads_prefix
           Samples.configured_summary Samples.long_text_a
           Samples.long_text_b []).
  - unfold Samples.long_text_a, Samples.long_text_b.
    rewrite !firstn_app, !repeat_length, !Nat.sub_diag. reflexivity.
  - rewrite strip_same.
    + unfold Samples.long_text_a, len.
      rewrite length_app, repeat_length. lia.
    + split; [reflexivity|].
      unfold Samples.long_text_a. rewrite rev_app_distr. reflexivity.
  - rewrite strip_same.
    + unfold Samples.long_text_b, len.
      rewrite length_app, repeat_length. lia.
    + split; [reflexivity|].
      unfold Samples.long_text_b. rewrite rev_app_distr. reflexivity.
Defined.

(** X13: the answer of [analyze_text] is consistent with the analysis:
    it names the text and its length, counts the risks it lists, and
    lists the risks of the analyzer in their order, with all their
    fields but the rewrite. Every [HTTPException] that the function
    raises has status 500. The service is called at most twice, and at
    most once when no risk is found. *)
Theorem X13_answer_consistent
        (summary_engine : SummaryEngine.t) (rewrite_engine : RewriteEngine.t)
        (persist : str -> str -> list Risk.t -> option (list str) -> outcome Z)
        (text : str) (log : calls) :
  exists sent,
    snd (Main.analyze_text summary_engine rewrite_engine persist text log)
    = log ++ sent
    /\ length sent <= match RiskAnalyzer.analyze text with
                      | [] => 1
                      | _ :: _ => 2
                      end
    /\ match fst (Main.analyze_text summary_engine rewrite_engine persist
                                    text log) with
       | Returned (Main.Ok answer) =>
           Main.document_name answer = lit "Text Input"
           /\ Main.text_length answer = len text
           /\ Main.original_text answer = text
           /\ Main.risks_found answer = len (Main.risks answer)
           /\ Main.risks_found answer = len (RiskAnalyzer.analyze text)
           /\ map frame (Main.risks answer)
              = map frame (RiskAnalyzer.analyze text)
       | Returned (Main.HTTPException status_code _) => status_code = 500%Z
       | Raised _ => False
       end.
Proof.
  destruct (analyze_text_cases summary_engine rewrite_engine persist text log)
    as (summary & log1 & rewrites & merged & log2 & Es & Er & Ea).
  destruct (generate_summary_log summary_engine text log)
    as (summary' & sent1 & Es' & Hs).
  destruct (rewrite_step_log rewrite_engine (RiskAnalyzer.analyze text) log1)
    as (rewrites' & sent2 & Er' & Hr).
  rewrite Es in Es'. injection Es' as _ ->.
  rewrite Er in Er'. injection Er' as -> -> ->.
  exists (sent1 ++ sent2). rewrite Ea. cbn [fst snd].
  split; [symmetry; apply app_assoc|]. split.
  - rewrite length_app.
    assert (L1 : length sent1 <= 1).
    { destruct Hs as [-> | [-> _]]; simpl; lia. }
    destruct (RiskAnalyzer.analyze text); lia.
  - set (merged := match rewrites' with
                    | Some (w :: ws) =>
                        Main.attach (w :: ws) (RiskAnalyzer.analyze text)
                    | _ => RiskAnalyzer.analyze text
                    end) in *.
    assert (F : map frame merged = map frame (RiskAnalyzer.analyze text)).
    { unfold merged. destruct rewrites' as [[|w ws]|]; try reflexivity.
      apply attach_from_frame. }
    destruct (persist text summary merged rewrites'); [|reflexivity].
    cbn [Main.document_name Main.text_length Main.original_text
         Main.risks_found Main.risks].
    repeat split; try exact F.
    unfold len. f_equal.
    rewrite <- (length_map frame merged), F, length_map. reflexivity.
Qed.

(** X14: when the rewrite engine has a model and the service answers
    the prompt built from the clauses, every risk of the answer carries
    a rewrite that is not empty, whatever the service wrote. *)
Theorem X14_every_risk_rewritten
        (summary_engine : SummaryEngine.t) (rewrite_engine : RewriteEngine.t)
        (persist : str -> str -> list Risk.t -> option (list str) -> outcome Z)
        (text : str) (log : calls) (m : GenerativeModel) (blob : str) :
  RewriteEngine.model rewrite_engine = Some m ->
  m (RewriteEngine._build_rewrite_prompt
       (map Risk.clause (RiskAnalyzer.analyze text))) = Returned blob ->
  match fst (Main.analyze_text summary_engine rewrite_engine persist
                               text log) with
  | Returned (Main.Ok answer) =>
      forallb has_rewrite (Main.risks answer) = true
  | Returned (Main.HTTPException _ _) => True
  | Raised _ => False
  end.
Proof.
  intros Hm Hblob.
  destruct (analyze_text_cases summary_engine rewrite_engine persist text log)
    as (summary & log1 & rewrites & merged & log2 & _ & Er & Ea).
  rewrite Ea. cbn [fst].
  destruct (persist _ _ _ _); [|exact I]. cbn [Main.risks].
  revert Er Hblob. generalize (RiskAnalyzer.analyze text). intros risks.
  destruct risks as [|risk risks]; intros Er Hblob.
  - cbn in Er. injection Er as _ <- _. reflexivity.
  - unfold Main.rewrite_step, try_except, bind in Er.
    cbn [map] in Er, Hblob. rewrite rewrite_clauses_batch, Hm in Er.
    cbn zeta in Er. rewrite Hblob in Er.
    assert (L : length (RewriteEngine._parse_rewrites blob
                          (len (Risk.clause risk :: map Risk.clause risks)))
                = S (length risks)).
    { rewrite parse_rewrites_length by (unfold len; lia).
      unfold len. rewrite Nat2Z.id. cbn [length]. rewrite length_map.
      reflexivity. }
    pose proof (parse_rewrites_nonempty blob
                  (len (Risk.clause risk :: map Risk.clause risks))) as Hne.
    destruct (RewriteEngine._parse_rewrites blob _) as [|w ws];
      [discriminate L|].
    cbv beta iota delta [ret] in Er. injection Er as _ <- _.
    unfold Main.attach. apply attach_from_all; [|exact Hne].
    cbn [length] in *. lia.
Qed.

(** The sentence on arbitration and a service that answers with one
    rewrite. *)
Lemma X14_every_risk_rewritten_witness :
  match fst (Main.analyze_text Samples.configured_summary
               Samples.steady_rewrite Samples.always_stored
               Samples.arbitration_text []) with
  | Returned (Main.Ok answer) =>
      forallb has_rewrite (Main.risks answer) = true
  | Returned (Main.HTTPException _ _) => True
  | Raised _ => False
  end.
Proof.
  apply (X14_every_risk_rewritten
           Samples.configured_summary Samples.steady_rewrite
           Samples.always_stored Samples.arbitration_text []
           Samples.steady_model (lit "REWRITE 1: A balanced clause."));
    reflexivity.
Defined.

(** X15: [demo_analyze_text] never fails: it answers with analysis id 0
    and otherwise with what [analyze_text] answers for the same text
    and engines when the analysis is stored, after the same calls. *)
Theorem X15_demo_same_answer
        (summary_engine : SummaryEngine.t) (rewrite_engine : RewriteEngine.t)
        (persist : str -> str -> list Risk.t -> option (list str) -> outcome Z)
        (text : str) (log : calls) :
  exists summary rewrites merged log',
    Endpoints.demo_analyze_text summary_engine rewrite_engine text log
    = (Returned
         (Main.Ok {| Main.analysis_id := 0;
                     Main.document_name := lit "Text Input";
                     Main.text_length := len text;
                     Main.risks_found := len merged;
                     Main.risks := merged;
                     Main.original_text := text |}), log')
    /\ Main.analyze_text summary_engine rewrite_engine persist text log
       = (Returned
            match persist text summary merged rewrites with
            | Returned id =>
                Main.Ok {| Main.analysis_id := id;
                           Main.document_name := lit "Text Input";
                           Main.text_length := len text;
                           Main.risks_found := len merged;
                           Main.risks := merged;
                           Main.original_text := text |}
            | Raised e => Main.HTTPException 500 (message e)
            end, log').
Proof.
  destruct (analyze_text_cases summary_engine rewrite_engine persist text log)
    as (summary & log1 & rewrites & merged & log2 & Es & Er & Ea).
  exists summary, rewrites, merged, log2. split; [|exact Ea].
  unfold Endpoints.demo_analyze_text, try_except, bind.
  rewrite Es, Er. reflexivity.
Qed.

(* ================================================================== *)
(** * Properties of auth.py *)
(* ================================================================== *)

Section AuthFacts.

Import Auth.


End AuthFacts.

(** X16: [migrate_password_if_needed] never migrates: whatever the
    password, the stored hash and the hashing context, it returns
    [False], leaves the user as it is and commits nothing, because a
    hash in bcrypt format is never verified. *)
Theorem X16_migration_never_occurs
        (pwd_context : Auth.CryptContext)
        (db_commit : Auth.User -> outcome unit)
        (plain_password hashed_password : str) (user : Auth.User) :
  Auth.migrate_password_if_needed
    pwd_context db_commit plain_password hashed_password user
  = (Returned false, user, []).
Proof.
  unfold Auth.migrate_password_if_needed, Auth.verify_password.
  destruct (Auth.is_bcrypt_hash hashed_password); reflexivity.
Qed.


(** X18: a user whose stored hash is in bcrypt format cannot log in:
    the answer is the refusal with status 401, whatever the password
    and whatever the hashing context would say. *)
Theorem X18_bcrypt_user_refused
        (pwd_context : Auth.CryptContext)
        (find_user : str -> outcome (option Auth.User))
        (create_access_token : str -> outcome str)
        (request_email request_password : str) (user : Auth.User) :
  find_user request_email = Returned (Some user) ->
  Auth.is_bcrypt_hash (Auth.hashed_password user) = true ->
  Auth.login pwd_context find_user create_access_token
             request_email request_password
  = Auth.Abort 401 (lit "Incorrect email or password").
Proof.
  intros Hu Hb. unfold Auth.login, Auth.verify_password.
  rewrite Hu, Hb. reflexivity.
Qed.

(** A user stored with a bcrypt hash, and a context that accepts every
    password. *)
Lemma X18_bcrypt_user_refused_witness :
  Auth.login Samples.accepting_context Samples.find_legacy_user
             Samples.any_token (lit "legacy@example.com") (lit "secret")
  = Auth.Abort 401 (lit "Incorrect email or password").
Proof.
  apply (X18_bcrypt_user_refused
           Samples.accepting_context Samples.find_legacy_user
           Samples.any_token (lit "legacy@example.com") (lit "secret")
           Samples.legacy_user);
    reflexivity.
Defined.

(* ================================================================== *)
(** * Properties of document_processor.py and of the uploads *)
(* ================================================================== *)

Lemma add_lines_concat (items : list str) (text : str) :
  DocumentProcessor.add_lines text items
  = text ++ concat (map (fun item => item ++ nl) items).
Proof.
  revert text. induction items as [|item items IH]; intros text.
  - cbn. rewrite app_nil_r. reflexivity.
  - cbn [DocumentProcessor.add_lines map concat]. rewrite IH.
    rewrite <- !app_assoc. reflexivity.
Qed.

(** X19: [extract_text] chooses the reader by the extension of the
    path in lowercase: the pages of a PDF file for [.pdf], the
    paragraphs of a Word file for [.docx] and for [.doc], the content
    for [.txt]. For every other extension it reads nothing and raises
    the error that names the extension. When the reader returns, the
    result is what it has read (each page or paragraph followed by a
    newline), trimmed, so it has no whitespace at either end; when the
    reader raises, its exception is raised. *)
Theorem X19_extracted_text_trimmed
        (rd : DocumentProcessor.readers) (file_path : str) :
  let ext := lower (PyPath.suffix file_path) in
  let lines := fun items => concat (map (fun item => item ++ nl) items) in
  (existsb (str_eqb ext) [lit ".pdf"; lit ".docx"; lit ".doc"; lit ".txt"]
   = false ->
   DocumentProcessor.extract_text rd file_path
   = Raised (Exception (lit "Unsupported file format: " ++ ext)))
  /\ match DocumentProcessor.extract_text rd file_path with
     | Returned text =>
         trimmed text
         /\ ((ext = lit ".pdf"
              /\ exists pages,
                   DocumentProcessor.pdf_pages rd file_path = Returned pages
                   /\ text = strip (lines pages))
             \/ ((ext = lit ".docx" \/ ext = lit ".doc")
                 /\ exists paragraphs,
                      DocumentProcessor.docx_paragraphs rd file_path
                      = Returned paragraphs
                      /\ text = strip (lines paragraphs))
             \/ (ext = lit ".txt"
                 /\ exists content,
                      DocumentProcessor.txt_read rd file_path
                      = Returned content
                      /\ text = strip content))
     | Raised e =>
         (ext = lit ".pdf"
          /\ DocumentProcessor.pdf_pages rd file_path = Raised e)
         \/ ((ext = lit ".docx" \/ ext = lit ".doc")
             /\ DocumentProcessor.docx_paragraphs rd file_path = Raised e)
         \/ (ext = lit ".txt"
             /\ DocumentProcessor.txt_read rd file_path = Raised e)
         \/ (existsb (str_eqb ext)
                     [lit ".pdf"; lit ".docx"; lit ".doc"; lit ".txt"]
             = false
             /\ e = Exception (lit "Unsupported file format: " ++ ext))
     end.
Proof.
  intros ext lines. unfold DocumentProcessor.extract_text. fold ext.
  cbn [existsb].
  destruct (str_eqb ext (lit ".pdf")) eqn:E1.
  - split; [discriminate|]. apply str_eqb_eq in E1.
    unfold DocumentProcessor._extract_from_pdf.
    destruct (DocumentProcessor.pdf_pages rd file_path) as [pages|e].
    + split; [apply strip_trimmed|]. left. split; [exact E1|].
      exists pages. split; [reflexivity|]. rewrite add_lines_concat.
      reflexivity.
    + left. split; [exact E1 | reflexivity].
  - destruct (str_eqb ext (lit ".docx")) eqn:E2;
      [|destruct (str_eqb ext (lit ".doc")) eqn:E3]; cbn [orb].
    + split; [discriminate|]. apply str_eqb_eq in E2.
      unfold DocumentProcessor._extract_from_docx.
      destruct (DocumentProcessor.docx_paragraphs rd file_path)
        as [paragraphs|e].
      * split; [apply strip_trimmed|]. right. left.
        split; [left; exact E2|].
        exists paragraphs. split; [reflexivity|].
        rewrite add_lines_concat. reflexivity.
      * right. left. split; [left; exact E2 | reflexivity].
    + split; [discriminate|]. apply str_eqb_eq in E3.
      unfold DocumentProcessor._extract_from_docx.
      destruct (DocumentProcessor.docx_paragraphs rd file_path)
        as [paragraphs|e].
      * split; [apply strip_trimmed|]. right. left.
        split; [right; exact E3|].
        exists paragraphs. split; [reflexivity|].
        rewrite add_lines_concat. reflexivity.
      * right. left. split; [right; exact E3 | reflexivity].
    + destruct (str_eqb ext (lit ".txt")) eqn:E4.
      * split; [discriminate|]. apply str_eqb_eq in E4.
        unfold DocumentProcessor._extract_from_txt.
        destruct (DocumentProcessor.txt_read rd file_path) as [content|e].
        -- split; [apply strip_trimmed|]. right. right.
           split; [exact E4|]. exists content. split; reflexivity.
        -- right. right. left. split; [exact E4 | reflexivity].
      * split; [reflexivity|]. right. right. right. split; reflexivity.
Qed.

(** A Markdown file is refused without being read, and a Word file of
    the old format is read as a DOCX file and trimmed. *)
Lemma X19_extracted_text_trimmed_witness :
  DocumentProcessor.extract_text Samples.two_paragraphs (lit "notes.MD")
  = Raised (Exception (lit "Unsupported file format: .md"))
  /\ DocumentProcessor.extract_text Samples.two_paragraphs
                                    (lit "uploads/lease.DOC")
     = Returned (lit "First paragraph." ++ nl ++ lit "Second paragraph.").
Proof.
  split.
  - destruct (X19_extracted_text_trimmed Samples.two_paragraphs
                                         (lit "notes.MD")) as [H _].
    apply H. vm_compute. reflexivity.
  - destruct (X19_extracted_text_trimmed Samples.two_paragraphs
                                         (lit "uploads/lease.DOC"))
      as [_ H].
    destruct (DocumentProcessor.extract_text Samples.two_paragraphs
                                             (lit "uploads/lease.DOC"))
      as [text|e].
    + destruct H as [_ [[E _] | [[_ (ps & Hps & ->)] | [E _]]]].
      * vm_compute in E. discriminate E.
      * vm_compute in Hps. injection Hps as <-. vm_compute. reflexivity.
      * vm_compute in E. discriminate E.
    + destruct H as [[E _] | [[_ H] | [[E _] | [E _]]]].
      * vm_compute in E. discriminate E.
      * vm_compute in H. discriminate H.
      * vm_compute in E. discriminate E.
      * vm_compute in E. discriminate E.
Defined.

(** X20: an upload that fails a check of [analyze_document] (no file
    name, more than 10 MiB, an extension other than [.pdf], [.docx]
    and [.txt]) is answered with status 500, not with the status 400,
    413 or 422 of the check, which only appears in the detail: the
    checks raise inside the [try] whose handler raises status 500.
    Nothing is processed and no file is removed. Every [HTTPException]
    that the function raises has status 500. *)
Theorem X20_upload_checks_answer_500
        (http_str : Z -> str -> str)
        (process : str -> list N -> io Main.response)
        (cleanup : str -> io unit)
        (filename : str) (content : list N) (log : calls) :
  let run := Endpoints.analyze_document http_str process cleanup
                                        filename content log in
  let refused status_code detail :=
    run = (Returned (Main.HTTPException 500 (http_str status_code detail)),
           log) in
  (filename = [] -> refused 400%Z (lit "No file provided"))
  /\ (filename <> [] -> (10 * 1024 * 1024 < len content)%Z ->
      refused 413%Z (lit "File too large. Maximum size is 10MB"))
  /\ (filename <> [] -> (len content <= 10 * 1024 * 1024)%Z ->
      existsb (str_eqb (lower (PyPath.suffix filename)))
              Endpoints.allowed_types = false ->
      refused 422%Z
        (lit "Unsupported file type. Allowed types: .pdf, .docx, .txt"))
  /\ match fst run with
     | Returned (Main.HTTPException status_code _) => status_code = 500%Z
     | _ => True
     end.
Proof.
  intros run refused. unfold refused, run, Endpoints.analyze_document,
    Endpoints.check_upload, Endpoints.raise_http, raise, ret.
  split; [|split; [|split]].
  - intros ->. reflexivity.
  - intros Hf Hlen. destruct filename; [contradiction|].
    apply Z.ltb_lt in Hlen. rewrite Hlen. reflexivity.
  - intros Hf Hlen Hext. destruct filename as [|c filename]; [contradiction|].
    apply Z.ltb_ge in Hlen. rewrite Hlen, Hext. reflexivity.
  - destruct filename as [|c filename]; [reflexivity|].
    destruct (Z.ltb (10 * 1024 * 1024) (len content)); [reflexivity|].
    destruct (negb _); [reflexivity|].
    destruct (process (c :: filename) content log) as [[r|e] log''];
      [exact I|].
    unfold bind. destruct (cleanup (c :: filename) log'') as [[u|e'] l];
      [reflexivity | exact I].
Qed.

(** A Word file of the old format: refused by the endpoint, although
    [extract_text] reads [.doc] files. *)
Lemma X20_upload_checks_answer_500_witness :
  Endpoints.analyze_document Samples.plain_http_str Samples.no_process
                             Samples.no_cleanup (lit "lease.DOC") [1%N] []
  = (Returned
       (Main.HTTPException 500
          (Samples.plain_http_str 422
             (lit "Unsupported file type. Allowed types: .pdf, .docx, .txt"))),
     []).
Proof.
  destruct (X20_upload_checks_answer_500
              Samples.plain_http_str Samples.no_process Samples.no_cleanup
              (lit "lease.DOC") [1%N] []) as (_ & _ & H & _).
  apply H.
  - discriminate.
  - vm_compute. discriminate.
  - vm_compute. reflexivity.
Defined.

(* ================================================================== *)
(** * Parsing a reply in the requested format *)
(* ================================================================== *)

Section ReplyFacts.

Import Re RewriteEngine.

(** Matching a literal text, case-sensitively. *)
Lemma rmatch_lits (p s : str) (k : str -> option str) (x : str) :
  rmatch false (seq (map Lit p)) s k = Some x ->
  exists s', s = p ++ s' /\ k s' = Some x.
Proof.
  revert s. induction p as [|a p IH]; intros s H.
  - exists s. split; [reflexivity | exact H].
  - assert (Step : forall k', (match s with
                               | c :: s' => if lit_match false a c
                                            then k' s' else None
                               | [] => None
                               end = Some x) ->
                     exists s', s = a :: s' /\ k' s' = Some x).
    { intros k' H'. destruct s as [|c s]; [discriminate H'|].
      unfold lit_match in H'. destruct (N.eqb c a) eqn:E; [|discriminate H'].
      apply N.eqb_eq in E. subst. exists s. split; [reflexivity | exact H']. }
    destruct p as [|b p].
    + cbn in H. apply Step in H. destruct H as [s' [-> H]].
      exists s'. split; [reflexivity | exact H].
    + cbn [map seq rmatch] in H. apply Step in H. destruct H as [s' [-> H]].
      apply IH in H. destruct H as [s'' [-> H]].
      exists s''. split; [reflexivity | exact H].
Qed.

Lemma rmatch_lits_app (p s' : str) (k : str -> option str) :
  rmatch false (seq (map Lit p)) (p ++ s') k = k s'.
Proof.
  induction p as [|a p IH]; [reflexivity|].
  destruct p as [|b p].
  - cbn. unfold lit_match. rewrite N.eqb_refl. reflexivity.
  - cbn [map seq rmatch app]. unfold lit_match. rewrite N.eqb_refl.
    exact IH.
Qed.

(** The greedy run of digits. *)
Lemma rmatch_digits (ds rest : str) (k : str -> option str) (x : str) :
  Forall (fun d => isdecimal d = true) ds ->
  match rest with [] => True | c :: _ => isdecimal c = false end ->
  k rest = Some x ->
  rmatch false (Star Digit) (ds ++ rest) k = Some x.
Proof.
  intros Hds Hrest Hk. induction Hds as [|d ds Hd Hds IH].
  - cbn [app rmatch]. destruct rest as [|c rest]; [exact Hk|].
    cbn [length rmatch]. rewrite Hrest. exact Hk.
  - cbn [app rmatch length]. rewrite Hd.
    assert (L : Nat.ltb (length (ds ++ rest)) (S (length (ds ++ rest)))
                = true) by (apply Nat.ltb_lt; lia).
    rewrite L. cbn [rmatch] in IH. rewrite IH. reflexivity.
Qed.

Lemma uint_digits (d : Decimal.uint) :
  Forall (fun c => isdecimal c = true) (lit (NilEmpty.string_of_uint d)).
Proof.
  induction d; cbn; constructor; try reflexivity; assumption.
Qed.

Lemma str_of_nat_digits (i : nat) :
  exists d ds, str_of_nat i = d :: ds
               /\ Forall (fun c => isdecimal c = true) (d :: ds).
Proof.
  unfold str_of_nat, NilZero.string_of_uint.
  destruct (Nat.to_uint i) eqn:E;
    try (match goal with
         | |- context [lit (NilEmpty.string_of_uint ?u)] =>
             pose proof (uint_digits u) as H;
             destruct (lit (NilEmpty.string_of_uint u)) as [|x xs] eqn:L;
             [discriminate L | exists x, xs; split; [reflexivity | exact H]]
         end).
  exists 48%N, []. split; [reflexivity|]. repeat constructor.
Qed.

(** A marker at the head of the input is matched whole. *)
Lemma rmatch_marker (i : nat) (rest : str) :
  rmatch false marker_re
         (marker_word ++ str_of_nat i ++ lit ":" ++ rest) Some
  = Some rest.
Proof.
  destruct (str_of_nat_digits i) as (d & ds & E & Hd).
  rewrite E. inversion Hd as [|? ? Hd1 Hds]; subst.
  change marker_re
    with (Seq (seq (map Lit marker_word)) (Seq (Plus Digit) (Lit 58%N))).
  cbn [rmatch]. rewrite rmatch_lits_app.
  unfold Plus. cbn [rmatch app]. rewrite Hd1.
  change (ds ++ lit ":" ++ rest) with (ds ++ (58%N :: rest)).
  apply rmatch_digits; [exact Hds | reflexivity |].
  cbn. reflexivity.
Qed.

(** A match of the marker pattern begins with the marker word. *)
Lemma rmatch_marker_word (s rest : str) :
  rmatch false marker_re s Some = Some rest ->
  startswith s marker_word = true.
Proof.
  change marker_re
    with (Seq (seq (map Lit marker_word)) (Seq (Plus Digit) (Lit 58%N))).
  cbn [rmatch]. intros H. apply rmatch_lits in H.
  destruct H as [s' [-> _]].
  generalize marker_word. intros p.
  induction p as [|a p IH]; [destruct s'; reflexivity|].
  cbn. unfold char_eqb. rewrite N.eqb_refl. exact IH.
Qed.

(** The scan passes over a stretch in which no match begins. *)
Lemma scan_quiet (r : regex) (u rest : str) (pos : nat) :
  (forall v x, u = v ++ x -> x <> [] ->
               rmatch false r (x ++ rest) Some = None) ->
  scan false r (u ++ rest) pos 0 = scan false r rest (pos + length u) 0.
Proof.
  revert pos. induction u as [|c u IH]; intros pos H.
  - cbn. rewrite Nat.add_0_r. reflexivity.
  - cbn [app scan].
    pose proof (H [] (c :: u) eq_refl ltac:(discriminate)) as E.
    cbn [app] in E. rewrite E, IH.
    + cbn [length]. f_equal. lia.
    + intros v x Ev Hx. apply (H (c :: v) x); [|exact Hx].
      rewrite Ev. reflexivity.
Qed.

Lemma scan_skip (r : regex) (u rest : str) (pos : nat) :
  scan false r (u ++ rest) pos (length u)
  = scan false r rest (pos + length u) 0.
Proof.
  revert pos. induction u as [|c u IH]; intros pos.
  - cbn [app length]. rewrite Nat.add_0_r. reflexivity.
  - cbn [app length scan]. rewrite IH. f_equal. lia.
Qed.

(** The scan reports a marker that stands at the head of the input. *)
Lemma scan_marker (i : nat) (rest : str) (pos : nat) :
  let mk := marker_word ++ str_of_nat i ++ lit ":" in
  scan false marker_re (mk ++ rest) pos 0
  = {| m_start := pos; m_end := pos + length mk; group0 := mk |}
    :: scan false marker_re rest (pos + length mk) 0.
Proof.
  intros mk.
  assert (M : rmatch false marker_re (mk ++ rest) Some = Some rest).
  { unfold mk. rewrite <- !app_assoc. apply rmatch_marker. }
  assert (Hmk : exists c t, mk = c :: t)
    by (unfold mk, marker_word; cbn; eauto).
  destruct Hmk as (c & t & Emk).
  assert (L : length (mk ++ rest) - length rest = length mk)
    by (rewrite length_app; lia).
  revert M L. rewrite Emk. cbn [app]. intros M L.
  cbn [scan]. rewrite M, L.
  assert (F : firstn (length (c :: t)) (c :: t ++ rest) = c :: t).
  { change (c :: t ++ rest) with ((c :: t) ++ rest).
    rewrite firstn_app, Nat.sub_diag, firstn_all. apply app_nil_r. }
  rewrite F. f_equal.
  cbn [length pred]. rewrite scan_skip. f_equal. lia.
Qed.

Lemma startswith_split (s p : str) :
  startswith s p = true -> exists t, s = p ++ t.
Proof.
  revert s. induction p as [|a p IH]; intros s H.
  - exists s. reflexivity.
  - destruct s as [|c s]; [discriminate H|].
    cbn in H. apply andb_true_iff in H. destruct H as [E H].
    apply char_eqb_eq in E. subst.
    destruct (IH s H) as [t ->]. exists t. reflexivity.
Qed.

Lemma startswith_app_l (x rest p : str) :
  length p <= length x -> startswith (x ++ rest) p = startswith x p.
Proof.
  revert x. induction p as [|a p IH]; intros x H.
  - destruct (x ++ rest), x; reflexivity.
  - destruct x as [|c x]; [simpl in H; lia|].
    cbn. rewrite IH by (simpl in H; lia). reflexivity.
Qed.

Lemma contains_suffix (v x p : str) :
  contains (v ++ x) p = false -> startswith x p = false.
Proof.
  induction v as [|c v IH]; cbn [app].
  - destruct x; cbn [contains]; intros H; apply orb_false_iff in H; tauto.
  - cbn [contains]. intros H. apply orb_false_iff in H. apply IH. tauto.
Qed.

Ltac split_chars :=
  repeat match goal with
         | |- context [char_eqb ?c ?v] =>
             is_var v; destruct (char_eqb c v) eqn:?
         end.

Lemma marker_word_chars :
  marker_word = [82; 69; 87; 82; 73; 84; 69; 32]%N.
Proof. reflexivity. Qed.

(** A marker word cannot begin in the last characters before another
    marker word: no end of the word is a beginning of it. *)
Lemma no_straddle (x rest : str) :
  x <> [] -> length x < 8 ->
  rest = [] \/ startswith rest marker_word = true ->
  startswith (x ++ rest) marker_word = false.
Proof.
  intros Hx Hlen Hrest.
  destruct Hrest as [-> | Hrest].
  - rewrite app_nil_r, marker_word_chars.
    do 8 (destruct x as [|? x];
          [cbn [startswith]; split_chars; reflexivity|]).
    simpl in Hlen. lia.
  - apply startswith_split in Hrest. destruct Hrest as [t ->].
    rewrite marker_word_chars.
    destruct x as [|x1 x]; [contradiction|].
    do 7 (destruct x as [|? x];
          [cbn [startswith app]; split_chars; reflexivity|]).
    simpl in Hlen. lia.
Qed.

(** No marker begins in a text without the marker word that is
    followed by nothing or by a marker. *)
Lemma quiet_before_marker (u rest : str) :
  contains u marker_word = false ->
  rest = [] \/ startswith rest marker_word = true ->
  forall v x, u = v ++ x -> x <> [] ->
    rmatch false marker_re (x ++ rest) Some = None.
Proof.
  intros Hu Hrest v x E Hx.
  destruct (rmatch false marker_re (x ++ rest) Some) as [r|] eqn:M;
    [|reflexivity].
  exfalso. apply rmatch_marker_word in M.
  destruct (Nat.le_gt_cases 8 (length x)) as [Hl | Hl].
  - rewrite startswith_app_l in M by exact Hl.
    rewrite E in Hu. apply contains_suffix in Hu. congruence.
  - rewrite (no_straddle x rest Hx Hl Hrest) in M. discriminate M.
Qed.

Lemma startswith_app_self (p t : str) : startswith (p ++ t) p = true.
Proof.
  induction p as [|a p IH]; [destruct t; reflexivity|].
  cbn. unfold char_eqb. rewrite N.eqb_refl. exact IH.
Qed.

(** No marker begins in the text of a rewrite and the newline after
    it: the marker word has neither the space that opens the line nor
    the newline that closes it. *)
Lemma quiet_line (w rest : str) :
  contains w marker_word = false ->
  forall v x, lit " " ++ w ++ nl = v ++ x -> x <> [] ->
    rmatch false marker_re (x ++ rest) Some = None.
Proof.
  intros Hw v x E Hx.
  destruct (rmatch false marker_re (x ++ rest) Some) as [r|] eqn:M;
    [|reflexivity].
  exfalso. apply rmatch_marker_word in M.
  destruct (@exists_last _ x Hx) as (y & c & ->).
  assert (E' : lit " " ++ w = v ++ y /\ c = 10%N).
  { rewrite !app_assoc in E. apply app_inj_tail in E.
    destruct E as [E1 E2]. split; [exact E1 | symmetry; exact E2]. }
  destruct E' as [E1 ->].
  destruct (Nat.le_gt_cases 8 (length y)) as [Hl | Hl].
  - rewrite <- app_assoc, startswith_app_l in M by exact Hl.
    destruct v as [|c v].
    + cbn [app] in E1. subst y. cbn in M. discriminate M.
    + cbn in E1. injection E1 as _ E1.
      rewrite E1 in Hw. apply contains_suffix in Hw. congruence.
  - apply startswith_split in M. destruct M as [t M].
    rewrite marker_word_chars in M. clear - M Hl.
    do 8 (destruct y as [|? y]; [cbn [app] in M; discriminate M|]).
    simpl in Hl. lia.
Qed.

(** The parts of a reply in the requested format. *)
Lemma split_reply_lines (ws : list str) :
  Forall carried ws ->
  forall (i : nat) (a : str) (p : nat),
    cut (scan false marker_re (reply_lines i ws) (p + length a) 0)
        p (a ++ reply_lines i ws)
    = a :: map (fun w => lit " " ++ w ++ nl) ws.
Proof.
  induction 1 as [|w ws Hw Hws IH]; intros i a p.
  - cbn. rewrite app_nil_r. reflexivity.
  - cbn [reply_lines map].
    set (mk := marker_word ++ str_of_nat i ++ lit ":").
    set (line := lit " " ++ w ++ nl).
    replace (marker_word ++ str_of_nat i ++ lit ":" ++ lit " " ++ w ++ nl
             ++ reply_lines (S i) ws)
      with (mk ++ line ++ reply_lines (S i) ws)
      by (unfold mk, line; rewrite <- !app_assoc; reflexivity).
    pose proof (scan_marker i (line ++ reply_lines (S i) ws)
                  (p + length a)) as Sm.
    cbn zeta in Sm. fold mk in Sm. rewrite Sm. cbn [cut m_start m_end].
    replace (p + length a - p) with (length a) by lia.
    rewrite firstn_app, Nat.sub_diag, firstn_all. cbn [firstn].
    rewrite app_nil_r. f_equal.
    replace (p + length a + length mk - p) with (length a + length mk)
      by lia.
    rewrite app_assoc, skipn_app, length_app, Nat.sub_diag.
    rewrite skipn_all2 by (rewrite length_app; lia). cbn [skipn app].
    rewrite scan_quiet.
    + apply (IH (S i) line (p + length a + length mk)).
    + destruct Hw as (_ & _ & Hw). apply quiet_line. exact Hw.
Qed.

Lemma strip_line (w : str) :
  nonempty w = true -> trimmed w -> strip (lit " " ++ w ++ nl) = w.
Proof.
  intros Hne [Hl Hr]. unfold strip, rstrip.
  assert (L : lstrip (lit " " ++ w ++ nl) = w ++ nl).
  { cbn. destruct w as [|c w]; [discriminate Hne|].
    cbn in *. rewrite Hl. reflexivity. }
  rewrite L, rev_app_distr. cbn [rev app nl].
  change (lstrip (10%N :: rev w)) with (lstrip (rev w)).
  assert (R : lstrip (rev w) = rev w).
  { destruct (rev w) as [|c t]; [reflexivity|].
    cbn in *. rewrite Hr. reflexivity. }
  rewrite R. apply rev_involutive.
Qed.

End ReplyFacts.

(* ================================================================== *)
(** * The parser against the contract read on the blob *)
(* ================================================================== *)

Section MarkerFacts.

Import Re RewriteEngine.











End MarkerFacts.



(** X21: the parser reads back a reply in the format that the prompt
    asks for. For rewrites that are not empty, have no whitespace at
    their ends and do not contain the marker word, written as
    [REWRITE i: w] lines numbered from 1 after a preamble without the
    marker word, the parser returns exactly these rewrites, in order. *)
Theorem X21_parse_reads_requested_format (preamble : str) (ws : list str) :
  contains preamble marker_word = false ->
  Forall carried ws ->
  RewriteEngine._parse_rewrites (preamble ++ reply_lines 1 ws) (len ws) = ws.
Proof.
  intros Hpre Hws.
  assert (Hsplit : Re.split RewriteEngine.marker_re
                     (preamble ++ reply_lines 1 ws)
                   = preamble :: map (fun w => lit " " ++ w ++ nl) ws).
  { unfold Re.split, Re.finditer. rewrite scan_quiet.
    - apply (split_reply_lines ws Hws 1 preamble 0).
    - apply quiet_before_marker; [exact Hpre|].
      destruct ws; [left; reflexivity | right; reflexivity]. }
  assert (Hseg : segments (preamble ++ reply_lines 1 ws) = ws).
  { unfold segments. rewrite Hsplit. cbn [tl]. clear Hsplit.
    induction Hws as [|w ws Hw Hws IH]; [reflexivity|].
    cbn [map filter]. destruct Hw as (Hne & Ht & _).
    rewrite (strip_line w Hne Ht), Hne, IH. reflexivity. }
  rewrite parse_rewrites_recovered by (unfold len; lia).
  assert (Hrec : firstn (Z.to_nat (len ws))
                   (recovered (preamble ++ reply_lines 1 ws)
                    ++ repeat RewriteEngine.placeholder
                         (Z.to_nat (len ws)
                          - length (recovered
                                      (preamble ++ reply_lines 1 ws))))
                 = ws).
  { unfold recovered. rewrite Hseg. unfold len. rewrite Nat2Z.id.
    destruct ws as [|w ws]; [reflexivity|].
    rewrite Nat.sub_diag. cbn [repeat]. rewrite app_nil_r.
    apply firstn_all. }
  exact Hrec.
Qed.

(** Two rewrites after a sentence of introduction. *)
Lemma X21_parse_reads_requested_format_witness :
  RewriteEngine._parse_rewrites
    (Samples.reply_preamble ++ reply_lines 1 Samples.two_rewrites) 2
  = Samples.two_rewrites.
Proof.
  apply (X21_parse_reads_requested_format
           Samples.reply_preamble Samples.two_rewrites).
  - vm_compute. reflexivity.
  - repeat constructor; vm_compute; reflexivity.
Defined.
